(** * Upgrade details tracker and download-rate codec

    A shallow embedding of
    [internal/pkg/agent/application/upgrade/details/details.go]:
    the [Details] tracker with its observers, the [Equals] comparison and
    the JSON codec of [downloadRate].

    Conventions of the embedding.
    - A Go [string] is a Rocq [string] (a sequence of bytes).
    - [float64] is an IEEE 754 binary64 value, given by [spec_float]
      (precision 53, maximal exponent 1024); Go's [==] on floats is [SFeqb].
    - A pointer is [option addr], [None] being [nil]; what a pointer refers to
      is read from a [Memory].
    - Every method of [Details] takes [d.mu] on entry and releases it on
      return, so a method body runs without interleaving; it is modelled as
      one [Action] on the [World] of the tracker.  Calling an observer is
      recorded as an [Invocation] in the world's call log. *)

From Stdlib Require Import String Ascii List ZArith Bool Arith Lia.
From Stdlib Require Import Floats.SpecFloat.
Import ListNotations.

Set Implicit Arguments.

Local Open Scope string_scope.

(* ===================================================================== *)
(** ** Go values used by the package *)
(* ===================================================================== *)

(** Go's [error] interface, for a non-nil value: all the package reads of an
    error is its description [err.Error()].  (A nil interface has no
    description: [err.Error()] panics on it.) *)
Record error : Type := errorString { Error : string }.

(** A Go result pair [(T, error)]: either a value with a nil error, or an
    error. *)
Inductive result (A : Type) : Type :=
| Ok (a : A)
| Err (e : error).

Arguments Ok {A} a.
Arguments Err {A} e.

(** [[]byte] *)
Definition bytes : Type := list Byte.byte.

(** [float64] *)
Definition float64 : Type := spec_float.

(** Go's [==] on [float64]: IEEE equality (NaN differs from everything,
    itself included; the two zeros are equal). *)
Definition float64_eqb (x y : float64) : bool := SFeqb x y.

Definition float64_is_nan (x : float64) : bool :=
  match x with S754_nan => true | _ => false end.

(** Addresses of heap cells. *)
Definition addr : Type := nat.

Module math.

(** [math.Inf(sign)]: positive infinity if [sign >= 0], negative infinity
    otherwise. *)
Definition Inf (sign : Z) : float64 := S754_infinity (sign <? 0)%Z.

(** [math.IsInf(f, sign)]: [f] is an infinity, of the sign of [sign]; either
    infinity when [sign] is 0. *)
Definition IsInf (f : float64) (sign : Z) : bool :=
  match f with
  | S754_infinity negative =>
      if negative then (sign <=? 0)%Z else (0 <=? sign)%Z
  | _ => false
  end.

End math.

Module strings.

(** [strings.HasSuffix]:
    [len(s) >= len(suffix) && s[len(s)-len(suffix):] == suffix] *)
Definition HasSuffix (s suffix : string) : bool :=
  (String.length suffix <=? String.length s)%nat &&
  String.eqb
    (substring (String.length s - String.length suffix) (String.length suffix) s)
    suffix.

(** [strings.TrimSuffix]: [s] without the trailing [suffix], or [s] itself when
    it does not end in [suffix]. *)
Definition TrimSuffix (s suffix : string) : string :=
  if HasSuffix s suffix
  then substring 0 (String.length s - String.length suffix) s
  else s.

End strings.

Module time.

(** [time.Time], as far as [Equal] reads it: the instant (seconds and
    nanoseconds since the epoch) and the location the instant is shown in.
    A [Time] here carries no monotonic clock reading: it is a time as parsing
    or decoding gives it, not one taken from [time.Now]. *)
Record Time : Type := mkTime {
  sec : Z;
  nsec : Z;
  loc : string
}.

(** [t.Equal(u)]: the same time instant, whatever the locations. *)
Definition Equal (t u : Time) : bool :=
  (sec t =? sec u)%Z && (nsec t =? nsec u)%Z.

End time.

(* ===================================================================== *)
(** ** The data model *)
(* ===================================================================== *)

(** [type State string] (declared in the package's state file). *)
Definition State : Type := string.

(** [type downloadRate float64] *)
Definition downloadRate : Type := float64.

(** [type Metadata struct] *)
Record Metadata : Type := mkMetadata {
  ScheduledAt : option addr;          (* *time.Time *)
  DownloadPercent : float64;
  DownloadRate : downloadRate;
  FailedState : State;
  ErrorMsg : string
}.

(** The zero value [Metadata{}]. *)
Definition Metadata_zero : Metadata :=
  {| ScheduledAt := None;
     DownloadPercent := S754_zero false;
     DownloadRate := S754_zero false;
     FailedState := EmptyString;
     ErrorMsg := EmptyString |}.

Definition set_DownloadPercent (p : float64) (m : Metadata) : Metadata :=
  {| ScheduledAt := ScheduledAt m; DownloadPercent := p;
     DownloadRate := DownloadRate m; FailedState := FailedState m;
     ErrorMsg := ErrorMsg m |}.

Definition set_DownloadRate (r : downloadRate) (m : Metadata) : Metadata :=
  {| ScheduledAt := ScheduledAt m; DownloadPercent := DownloadPercent m;
     DownloadRate := r; FailedState := FailedState m;
     ErrorMsg := ErrorMsg m |}.

Definition set_FailedState (s : State) (m : Metadata) : Metadata :=
  {| ScheduledAt := ScheduledAt m; DownloadPercent := DownloadPercent m;
     DownloadRate := DownloadRate m; FailedState := s;
     ErrorMsg := ErrorMsg m |}.

Definition set_ErrorMsg (e : string) (m : Metadata) : Metadata :=
  {| ScheduledAt := ScheduledAt m; DownloadPercent := DownloadPercent m;
     DownloadRate := DownloadRate m; FailedState := FailedState m;
     ErrorMsg := e |}.

Section Tracker.

(** [type Observer func(details *Details)]: a callback is opaque to the
    package, which only stores it and calls it. *)
Variable Observer : Type.

(** The two [State] constants the file reads; their values are declared
    next to [State], outside this file. *)
Variable StateCompleted : State.
Variable StateFailed : State.

(** [type Details struct].  The mutex [mu] is not a field of the model: see
    the conventions above. *)
Record Details : Type := mkDetails {
  TargetVersion : string;
  State_ : State;
  ActionID : string;
  Metadata_ : Metadata;
  observers : list Observer
}.

Definition set_State (s : State) (d : Details) : Details :=
  {| TargetVersion := TargetVersion d; State_ := s; ActionID := ActionID d;
     Metadata_ := Metadata_ d; observers := observers d |}.

Definition set_Metadata (m : Metadata) (d : Details) : Details :=
  {| TargetVersion := TargetVersion d; State_ := State_ d;
     ActionID := ActionID d; Metadata_ := m; observers := observers d |}.

Definition set_observers (os : list Observer) (d : Details) : Details :=
  {| TargetVersion := TargetVersion d; State_ := State_ d;
     ActionID := ActionID d; Metadata_ := Metadata_ d; observers := os |}.

(** One call [observer(p)]: [passed] is [None] for [observer(nil)] and
    [Some c] for [observer(&c)]. *)
Record Invocation : Type := mkInvocation {
  callee : Observer;
  passed : option Details
}.

(** The tracker [*d] and the calls made to observers so far. *)
Record World : Type := mkWorld {
  tracker : Details;
  calls : list Invocation
}.

(** A method body: it reads and writes the world and returns a value. *)
Definition Action (A : Type) : Type := World -> A * World.

Definition ret {A : Type} (a : A) : Action A := fun w => (a, w).

Definition bind {A B : Type} (m : Action A) (k : A -> Action B) : Action B :=
  fun w => let (a, w') := m w in k a w'.

Notation "x <- m ;; k" := (bind m (fun x => k))
  (at level 61, m at next level, right associativity).
Notation "m ;; k" := (bind m (fun _ => k))
  (at level 61, right associativity).

(** Read [*d]. *)
Definition this : Action Details := fun w => (tracker w, w).

(** Assign to fields of [*d]. *)
Definition assign (f : Details -> Details) : Action unit :=
  fun w => (tt, {| tracker := f (tracker w); calls := calls w |}).

(** Call [observer(p)]. *)
Definition call (observer : Observer) (p : option Details) : Action unit :=
  fun w => (tt, {| tracker := tracker w;
                   calls := calls w ++ [mkInvocation observer p] |}).

(** [for _, x := range xs { body(x) }] *)
Fixpoint forRange {A : Type} (xs : list A) (body : A -> Action unit)
  : Action unit :=
  match xs with
  | [] => ret tt
  | x :: rest => body x ;; forRange rest body
  end.

(** The world after running a method. *)
Definition exec {A : Type} (m : Action A) (w : World) : World := snd (m w).

(** [NewDetails] *)
Definition NewDetails (targetVersion : string) (initialState : State)
  (actionID : string) : Details :=
  {| TargetVersion := targetVersion;
     State_ := initialState;
     ActionID := actionID;
     Metadata_ := Metadata_zero;
     observers := [] |}.

(** [Details.notifyObserver] *)
Definition notifyObserver (observer : Observer) : Action unit :=
  d <- this ;;
  if String.eqb (State_ d) StateCompleted
  then call observer None
  else
    let dCopy := {| TargetVersion := TargetVersion d;
                    State_ := State_ d;
                    ActionID := ActionID d;
                    Metadata_ := Metadata_ d;
                    observers := [] |} in
    call observer (Some dCopy).

(** [Details.notifyObservers] *)
Definition notifyObservers : Action unit :=
  d <- this ;;
  forRange (observers d) notifyObserver.

(** [Details.SetState] *)
Definition SetState (s : State) : Action unit :=
  assign (set_State s) ;;
  (if negb (String.eqb s StateFailed)
   then
     assign (fun d => set_Metadata (set_ErrorMsg EmptyString (Metadata_ d)) d) ;;
     assign (fun d => set_Metadata (set_FailedState EmptyString (Metadata_ d)) d)
   else ret tt) ;;
  notifyObservers.

(** [Details.SetDownloadProgress] *)
Definition SetDownloadProgress (percent rateBytesPerSecond : float64)
  : Action unit :=
  assign (fun d => set_Metadata (set_DownloadPercent percent (Metadata_ d)) d) ;;
  assign (fun d =>
            set_Metadata (set_DownloadRate rateBytesPerSecond (Metadata_ d)) d) ;;
  notifyObservers.

(** [Details.Fail], for a non-nil [err]. *)
Definition Fail (err : error) : Action unit :=
  d <- this ;;
  (if negb (String.eqb (State_ d) StateFailed)
   then assign (fun d' => set_Metadata (set_FailedState (State_ d) (Metadata_ d')) d')
   else ret tt) ;;
  assign (fun d' => set_Metadata (set_ErrorMsg (Error err) (Metadata_ d')) d') ;;
  assign (set_State StateFailed) ;;
  notifyObservers.

(** [Details.RegisterObserver] *)
Definition RegisterObserver (observer : Observer) : Action unit :=
  assign (fun d => set_observers (observers d ++ [observer]) d) ;;
  notifyObserver observer.

(** The argument [notifyObserver] passes for a tracker [d]: [nil] once the
    upgrade is completed, else the address of a copy of the four exported
    fields. *)
Definition delivered (d : Details) : option Details :=
  if String.eqb (State_ d) StateCompleted then None
  else Some {| TargetVersion := TargetVersion d; State_ := State_ d;
               ActionID := ActionID d; Metadata_ := Metadata_ d;
               observers := [] |}.

(** The mutating calls of the tracker. *)
Inductive Mutation : Type :=
| CallSetState (s : State)
| CallSetDownloadProgress (percent rateBytesPerSecond : float64)
| CallFail (err : error).

Definition run (c : Mutation) : Action unit :=
  match c with
  | CallSetState s => SetState s
  | CallSetDownloadProgress percent rate => SetDownloadProgress percent rate
  | CallFail err => Fail err
  end.

(** The worlds a tracker can be in: freshly created by [NewDetails], then
    after any sequence of calls of its methods that return, [Fail] being
    given a non-nil error.  ([Fail] on a nil error does not return: see
    [Fail_nil] and [reachable_with_panics].) *)
Inductive reachable : World -> Prop :=
| reachable_NewDetails (targetVersion : string) (initialState : State)
    (actionID : string) :
    reachable {| tracker := NewDetails targetVersion initialState actionID;
                 calls := [] |}
| reachable_run (w : World) (c : Mutation) :
    reachable w -> reachable (exec (run c) w)
| reachable_RegisterObserver (w : World) (observer : Observer) :
    reachable w -> reachable (exec (RegisterObserver observer) w).

(** What pointers refer to: the [time.Time] and the [Details] stored at each
    address. *)
Record Memory : Type := mkMemory {
  timeAt : addr -> time.Time;
  detailsAt : addr -> Details
}.

(** [p == q] on pointers. *)
Definition ptr_eqb (p q : option addr) : bool :=
  match p, q with
  | None, None => true
  | Some a, Some b => Nat.eqb a b
  | _, _ => false
  end.

(** [equalTimePointers] *)
Definition equalTimePointers (mem : Memory) (t otherT : option addr) : bool :=
  if ptr_eqb t otherT then true
  else
    match t, otherT with
    | None, _ | _, None => false
    | Some a, Some b => time.Equal (timeAt mem a) (timeAt mem b)
    end.

(** [Metadata.Equals] *)
Definition Metadata_Equals (mem : Memory) (m otherM : Metadata) : bool :=
  equalTimePointers mem (ScheduledAt m) (ScheduledAt otherM) &&
  String.eqb (FailedState m) (FailedState otherM) &&
  String.eqb (ErrorMsg m) (ErrorMsg otherM) &&
  float64_eqb (DownloadPercent m) (DownloadPercent otherM) &&
  float64_eqb (DownloadRate m) (DownloadRate otherM).

(** [Details.Equals] *)
Definition Details_Equals (mem : Memory) (d otherD : option addr) : bool :=
  if ptr_eqb d otherD then true
  else
    match d, otherD with
    | None, _ | _, None => false
    | Some a, Some b =>
        let d := detailsAt mem a in
        let otherD := detailsAt mem b in
        String.eqb (State_ d) (State_ otherD) &&
        String.eqb (TargetVersion d) (TargetVersion otherD) &&
        String.eqb (ActionID d) (ActionID otherD) &&
        Metadata_Equals mem (Metadata_ d) (Metadata_ otherD)
    end.

End Tracker.

Arguments NewDetails Observer targetVersion initialState actionID : clear implicits.
Arguments SetState {Observer} StateCompleted StateFailed s _.
Arguments SetDownloadProgress {Observer} StateCompleted percent rateBytesPerSecond _.
Arguments Fail {Observer} StateCompleted StateFailed err _.
Arguments RegisterObserver {Observer} StateCompleted observer _.
Arguments run {Observer} StateCompleted StateFailed c _.
Arguments reachable {Observer} StateCompleted StateFailed _.
Arguments notifyObserver {Observer} StateCompleted observer _.
Arguments notifyObservers {Observer} StateCompleted _.
Arguments delivered {Observer} StateCompleted d.

(* ===================================================================== *)
(** ** The JSON codec of [downloadRate] *)
(* ===================================================================== *)

Section Codec.

(** [units.HumanSizeWithPrecision] and [units.FromHumanSize] of
    [github.com/docker/go-units], and [json.Marshal] and [json.Unmarshal] on a
    string: library functions, taken as they are.  [size] is the type of what
    [FromHumanSize] returns and [size_to_rate] the conversion
    [downloadRate(...)] applied to it. *)
Variable HumanSizeWithPrecision : float64 -> Z -> string.
Variable size : Type.
Variable FromHumanSize : string -> result size.
Variable size_to_rate : size -> downloadRate.
Variable json_Marshal : string -> result bytes.
Variable json_Unmarshal : bytes -> result string.

(** [downloadRate.MarshalJSON] *)
Definition MarshalJSON (dr : downloadRate) : result bytes :=
  let downloadRateBytesPerSecond : float64 := dr in
  if math.IsInf downloadRateBytesPerSecond 0
  then json_Marshal "+Inf bps"
  else json_Marshal (HumanSizeWithPrecision downloadRateBytesPerSecond 2 ++ "ps").

(** [downloadRate.UnmarshalJSON]: the new value of [*dr] and the returned
    error ([None] for [nil]). *)
Definition UnmarshalJSON (dr : downloadRate) (data : bytes)
  : downloadRate * option error :=
  match json_Unmarshal data with
  | Err err => (dr, Some err)
  | Ok downloadRateStr =>
      if String.eqb downloadRateStr "+Inf bps"
      then (math.Inf 1, None)
      else
        let downloadRateStr := strings.TrimSuffix downloadRateStr "ps" in
        match FromHumanSize downloadRateStr with
        | Err err => (dr, Some err)
        | Ok downloadRateBytesPerSecond =>
            (size_to_rate downloadRateBytesPerSecond, None)
        end
  end.

End Codec.

(* ===================================================================== *)
(** ** Sequences of calls *)
(* ===================================================================== *)

Section Runs.

Variable Observer : Type.
Variable StateCompleted : State.
Variable StateFailed : State.

(** One call of a method of the tracker by its owner. *)
Inductive Call : Type :=
| DoMutation (c : Mutation)
| DoRegisterObserver (observer : Observer).

Definition perform (c : Call) : Action Observer unit :=
  match c with
  | DoMutation m => run StateCompleted StateFailed m
  | DoRegisterObserver observer => RegisterObserver StateCompleted observer
  end.

(** The calls of a list, one after the other. *)
Fixpoint performAll (cs : list Call) (w : World Observer) : World Observer :=
  match cs with
  | [] => w
  | c :: rest => performAll rest (exec (perform c) w)
  end.

(** The observers a list of calls registers, in the order of the calls. *)
Fixpoint registered (cs : list Call) : list Observer :=
  match cs with
  | [] => []
  | DoMutation _ :: rest => registered rest
  | DoRegisterObserver observer :: rest => observer :: registered rest
  end.

(** The tracker after each mutating call of a list, in the order of the
    calls. *)
Fixpoint trackersAfter (ms : list Mutation) (w : World Observer)
  : list (Details Observer) :=
  match ms with
  | [] => []
  | m :: rest =>
      let w' := exec (run StateCompleted StateFailed m) w in
      tracker w' :: trackersAfter rest w'
  end.

End Runs.

Arguments DoMutation {Observer} c.
Arguments perform {Observer} StateCompleted StateFailed c _.
Arguments performAll {Observer} StateCompleted StateFailed cs w.
Arguments trackersAfter {Observer} StateCompleted StateFailed ms w.

(* ===================================================================== *)
(** ** [Fail] on a nil error *)
(* ===================================================================== *)

Section NilError.

Variable Observer : Type.
Variable StateCompleted : State.
Variable StateFailed : State.

(** [Details.Fail(nil)]: [err.Error()] panics on the nil interface, after
    the assignment to [FailedState] that precedes it and before the
    assignments to [ErrorMsg] and [State] and the notification.  The deferred
    [Unlock] releases the mutex, so a caller that recovers from the panic goes
    on with the tracker as this action leaves it. *)
Definition Fail_nil : Action Observer unit :=
  bind (@this Observer) (fun d =>
    if negb (String.eqb (State_ d) StateFailed)
    then assign (fun d' =>
                   set_Metadata (set_FailedState (State_ d) (Metadata_ d')) d')
    else ret tt).

(** The worlds a tracker can be in when its owner also recovers from the
    panics of [Fail(nil)]: those of [reachable], and those after any number of
    such panics among the calls. *)
Inductive reachable_with_panics : World Observer -> Prop :=
| with_panics_NewDetails (targetVersion : string) (initialState : State)
    (actionID : string) :
    reachable_with_panics
      {| tracker := NewDetails Observer targetVersion initialState actionID;
         calls := [] |}
| with_panics_run (w : World Observer) (c : Mutation) :
    reachable_with_panics w ->
    reachable_with_panics (exec (run StateCompleted StateFailed c) w)
| with_panics_RegisterObserver (w : World Observer) (observer : Observer) :
    reachable_with_panics w ->
    reachable_with_panics (exec (RegisterObserver StateCompleted observer) w)
| with_panics_Fail_nil (w : World Observer) :
    reachable_with_panics w ->
    reachable_with_panics (exec Fail_nil w).

End NilError.

Arguments Fail_nil {Observer} StateFailed _.
Arguments reachable_with_panics {Observer} StateCompleted StateFailed _.

(* ===================================================================== *)
(** ** Concrete values for the closed examples *)
(* ===================================================================== *)

(** Two values for the constants [StateCompleted] and [StateFailed], and two
    further states. *)
Definition UPG_COMPLETED : State := "UPG_COMPLETED".
Definition UPG_FAILED : State := "UPG_FAILED".
Definition UPG_REQUESTED : State := "UPG_REQUESTED".
Definition UPG_DOWNLOADING : State := "UPG_DOWNLOADING".

(** A tracker as [NewDetails("9.1.0", UPG_REQUESTED, "act-1")] creates it, its
    observers being numbered. *)
Definition fresh_world : World nat :=
  {| tracker := NewDetails nat "9.1.0" UPG_REQUESTED "act-1"; calls := [] |}.

(** The same tracker with observers 7 and 9 registered, in this order. *)
Definition observed_world : World nat :=
  exec (RegisterObserver UPG_COMPLETED 9)
    (exec (RegisterObserver UPG_COMPLETED 7) fresh_world).

(** [errors.New("disk full")] *)
Definition disk_full : error := errorString "disk full".

(** The fresh tracker after [Fail(errors.New("disk full"))]. *)
Definition failed_world : World nat :=
  exec (Fail UPG_COMPLETED UPG_FAILED disk_full) fresh_world.

(** Two trackers with the same exported fields and different observers, and
    two [time.Time] values for one instant shown in two locations. *)
Definition two_trackers : Memory nat :=
  {| timeAt := fun a =>
       match a with
       | 0 => time.mkTime 1700000000 0 "UTC"
       | _ => time.mkTime 1700000000 0 "Europe/Paris"
       end;
     detailsAt := fun a =>
       match a with
       | 0 => set_observers [7; 9] (tracker failed_world)
       | _ => set_observers [] (tracker failed_world)
       end |}.

(** Two trackers that differ only in where [ScheduledAt] points: at the two
    [time.Time] values above. *)
Definition scheduled_trackers : Memory nat :=
  {| timeAt := timeAt two_trackers;
     detailsAt := fun a =>
       let d := tracker fresh_world in
       let m := Metadata_ d in
       set_Metadata
         {| ScheduledAt := Some a; DownloadPercent := DownloadPercent m;
            DownloadRate := DownloadRate m; FailedState := FailedState m;
            ErrorMsg := ErrorMsg m |} d |}.

(** Two trackers, at addresses 0 and 1, after
    [SetDownloadProgress(math.NaN(), 2048)]: field by field the same. *)
Definition nan_trackers : Memory nat :=
  {| timeAt := fun _ => time.mkTime 0 0 "UTC";
     detailsAt := fun _ =>
       tracker (exec (SetDownloadProgress UPG_COMPLETED S754_nan
                        (S754_finite false 4503599627370496 (-41)))
                  fresh_world) |}.

(** Stand-ins for the library functions of the codec, for the closed examples:
    a JSON codec for texts that need no escaping, and a size parser that knows
    one text. *)
Definition sample_json_Marshal (s : string) : result bytes :=
  Ok (Byte.x22 :: list_byte_of_string s ++ [Byte.x22])%list.

Definition sample_json_Unmarshal (data : bytes) : result string :=
  match data with
  | q :: rest =>
      if Byte.eqb q Byte.x22 && Byte.eqb (last rest Byte.x00) Byte.x22
      then Ok (string_of_list_byte (removelast rest))
      else Err (errorString "invalid character looking for beginning of value")
  | [] => Err (errorString "unexpected end of JSON input")
  end.

Definition sample_HumanSizeWithPrecision (f : float64) (precision : Z) : string :=
  "2kB".

Definition sample_FromHumanSize (s : string) : result Z :=
  if String.eqb s "2kB" then Ok 2000%Z
  else Err (errorString "invalid size").

Definition sample_size_to_rate (n : Z) : downloadRate :=
  binary_normalize 53 1024 n 0 false.

(** The floats 0.5 and 2048. *)
Definition half : float64 := S754_finite false 4503599627370496 (-53).
Definition rate_2048 : float64 := S754_finite false 4503599627370496 (-41).

(* ===================================================================== *)
(** ** Properties of the tracker *)
(* ===================================================================== *)

Section TrackerProperties.

Variable Observer : Type.
Variable StateCompleted : State.
Variable StateFailed : State.

Implicit Types (w : World Observer) (d : Details Observer) (s : State).

Local Open Scope list_scope.

(** The loop of [notifyObservers] leaves the tracker alone and logs one call
    per element of the list it ranges over, in the order of the list. *)
Lemma forRange_notifyObserver (os : list Observer) w :
  forRange os (notifyObserver StateCompleted) w =
  (tt, {| tracker := tracker w;
          calls := calls w ++
                   map (fun o => mkInvocation o (delivered StateCompleted (tracker w)))
                       os |}).
Proof.
  revert w. induction os as [| o os IH]; intros w.
  - simpl. unfold ret. rewrite app_nil_r. destruct w; reflexivity.
  - simpl. unfold bind at 1.
    unfold notifyObserver at 1, bind, this, call.
    destruct (String.eqb (State_ (tracker w)) StateCompleted) eqn:E;
      rewrite IH; unfold delivered; simpl; rewrite E, <- app_assoc; reflexivity.
Qed.

Lemma notifyObservers_spec w :
  notifyObservers StateCompleted w =
  (tt, {| tracker := tracker w;
          calls := calls w ++
                   map (fun o => mkInvocation o (delivered StateCompleted (tracker w)))
                       (observers (tracker w)) |}).
Proof.
  unfold notifyObservers, bind, this. apply forRange_notifyObserver.
Qed.

Lemma notifyObserver_spec (o : Observer) w :
  notifyObserver StateCompleted o w =
  (tt, {| tracker := tracker w;
          calls := calls w ++ [mkInvocation o (delivered StateCompleted (tracker w))] |}).
Proof.
  unfold notifyObserver, bind, this, call, delivered.
  destruct (String.eqb (State_ (tracker w)) StateCompleted); reflexivity.
Qed.

(** The tracker each method leaves behind. *)
Lemma tracker_SetState s w :
  tracker (exec (SetState StateCompleted StateFailed s) w) =
  if String.eqb s StateFailed
  then set_State s (tracker w)
  else set_Metadata
         (set_FailedState EmptyString
            (set_ErrorMsg EmptyString (Metadata_ (tracker w))))
         (set_State s (tracker w)).
Proof.
  unfold exec, SetState, bind, assign, ret.
  destruct (String.eqb s StateFailed); simpl;
    rewrite notifyObservers_spec; reflexivity.
Qed.

Lemma tracker_SetDownloadProgress (percent rate : float64) w :
  tracker (exec (SetDownloadProgress StateCompleted percent rate) w) =
  set_Metadata
    (set_DownloadRate rate (set_DownloadPercent percent (Metadata_ (tracker w))))
    (tracker w).
Proof.
  unfold exec, SetDownloadProgress, bind, assign.
  rewrite notifyObservers_spec. reflexivity.
Qed.

Lemma tracker_Fail (err : error) w :
  tracker (exec (Fail StateCompleted StateFailed err) w) =
  set_State StateFailed
    (set_Metadata
       (set_ErrorMsg (Error err)
          (if String.eqb (State_ (tracker w)) StateFailed
           then Metadata_ (tracker w)
           else set_FailedState (State_ (tracker w)) (Metadata_ (tracker w))))
       (tracker w)).
Proof.
  unfold exec, Fail, bind, this, assign, ret.
  destruct (String.eqb (State_ (tracker w)) StateFailed); simpl;
    rewrite notifyObservers_spec; reflexivity.
Qed.

Lemma tracker_RegisterObserver (o : Observer) w :
  tracker (exec (RegisterObserver StateCompleted o) w) =
  set_observers (observers (tracker w) ++ [o]) (tracker w).
Proof.
  unfold exec, RegisterObserver, bind, assign.
  rewrite notifyObserver_spec. reflexivity.
Qed.

(** *** [SetState] *)

(** C3. [SetState(s)] assigns [s] to [State]; when [s] is not [StateFailed]
    it also sets [FailedState] and [ErrorMsg] to the empty string, whatever
    they held, so that both are empty after the call.  Nothing else of the
    tracker changes. *)
Theorem SetState_assigns_and_clears w s :
  let d' := tracker (exec (SetState StateCompleted StateFailed s) w) in
  State_ d' = s /\
  (s <> StateFailed ->
   FailedState (Metadata_ d') = EmptyString /\
   ErrorMsg (Metadata_ d') = EmptyString) /\
  TargetVersion d' = TargetVersion (tracker w) /\
  ActionID d' = ActionID (tracker w) /\
  ScheduledAt (Metadata_ d') = ScheduledAt (Metadata_ (tracker w)) /\
  DownloadPercent (Metadata_ d') = DownloadPercent (Metadata_ (tracker w)) /\
  DownloadRate (Metadata_ d') = DownloadRate (Metadata_ (tracker w)) /\
  observers d' = observers (tracker w).
Proof.
  intros d'. subst d'. rewrite tracker_SetState.
  destruct (String.eqb s StateFailed) eqn:E; simpl.
  - apply String.eqb_eq in E. repeat split; try reflexivity; contradiction.
  - repeat split; reflexivity.
Qed.

(** C10. [SetState(StateFailed)] leaves [FailedState] and [ErrorMsg] as they
    were: what an earlier [Fail] recorded stays, and a fresh tracker brought to
    [StateFailed] by [SetState] alone has both empty. *)
Theorem SetState_Failed_keeps_failure_metadata w :
  let d' := tracker (exec (SetState StateCompleted StateFailed StateFailed) w) in
  State_ d' = StateFailed /\
  FailedState (Metadata_ d') = FailedState (Metadata_ (tracker w)) /\
  ErrorMsg (Metadata_ d') = ErrorMsg (Metadata_ (tracker w)) /\
  (forall err : error,
     let failed := exec (Fail StateCompleted StateFailed err) w in
     let again :=
       tracker (exec (SetState StateCompleted StateFailed StateFailed) failed) in
     FailedState (Metadata_ again) = FailedState (Metadata_ (tracker failed)) /\
     ErrorMsg (Metadata_ again) = Error err) /\
  (forall (targetVersion : string) (initialState : State) (actionID : string),
     let fresh := {| tracker := NewDetails Observer targetVersion initialState actionID;
                     calls := [] |} in
     let d0 := tracker (exec (SetState StateCompleted StateFailed StateFailed) fresh) in
     State_ d0 = StateFailed /\
     FailedState (Metadata_ d0) = EmptyString /\
     ErrorMsg (Metadata_ d0) = EmptyString).
Proof.
  intros d'. subst d'.
  repeat split; intros; rewrite ?tracker_SetState, ?tracker_Fail,
    ?String.eqb_refl; reflexivity.
Qed.

(** *** [Fail] *)

Lemma State_Fail w (err : error) :
  State_ (tracker (exec (Fail StateCompleted StateFailed err) w)) = StateFailed.
Proof. rewrite tracker_Fail. reflexivity. Qed.

Lemma ErrorMsg_Fail w (err : error) :
  ErrorMsg (Metadata_ (tracker (exec (Fail StateCompleted StateFailed err) w))) =
  Error err.
Proof. rewrite tracker_Fail. reflexivity. Qed.

Lemma FailedState_Fail w (err : error) :
  FailedState (Metadata_ (tracker (exec (Fail StateCompleted StateFailed err) w))) =
  if String.eqb (State_ (tracker w)) StateFailed
  then FailedState (Metadata_ (tracker w))
  else State_ (tracker w).
Proof.
  rewrite tracker_Fail. simpl.
  destruct (String.eqb (State_ (tracker w)) StateFailed); reflexivity.
Qed.

(** C2. [Fail(err)] sets [State] to [StateFailed] and [ErrorMsg] to
    [err.Error()].  [FailedState] becomes the state before the call when that
    state was not [StateFailed], and is left as it was otherwise; so a second
    [Fail] keeps the [FailedState] of the first, and [Fail] never makes
    [FailedState] equal to [StateFailed]. *)
Theorem Fail_records_failure w (err : error) :
  let d := tracker w in
  let w' := exec (Fail StateCompleted StateFailed err) w in
  let d' := tracker w' in
  State_ d' = StateFailed /\
  ErrorMsg (Metadata_ d') = Error err /\
  (State_ d <> StateFailed -> FailedState (Metadata_ d') = State_ d) /\
  (State_ d = StateFailed ->
   FailedState (Metadata_ d') = FailedState (Metadata_ d)) /\
  (forall err2 : error,
     let d'' := tracker (exec (Fail StateCompleted StateFailed err2) w') in
     FailedState (Metadata_ d'') = FailedState (Metadata_ d') /\
     ErrorMsg (Metadata_ d'') = Error err2 /\
     State_ d'' = StateFailed) /\
  (FailedState (Metadata_ d') = StateFailed ->
   FailedState (Metadata_ d) = StateFailed).
Proof.
  intros d w' d'. subst d w' d'.
  pose proof (State_Fail w err) as HS.
  pose proof (FailedState_Fail w err) as HF.
  repeat split.
  - exact HS.
  - apply ErrorMsg_Fail.
  - intros N. apply String.eqb_neq in N. rewrite HF, N. reflexivity.
  - intros E. rewrite HF, E, String.eqb_refl. reflexivity.
  - rewrite FailedState_Fail, HS, String.eqb_refl. reflexivity.
  - apply ErrorMsg_Fail.
  - apply State_Fail.
  - rewrite HF.
    destruct (String.eqb (State_ (tracker w)) StateFailed) eqn:E.
    + trivial.
    + intros H. apply String.eqb_neq in E. contradiction.
Qed.

(** *** The failure metadata over the life of a tracker *)

(** C1, amended. In every world reached from [NewDetails] by calls that
    return ([SetState], [SetDownloadProgress], [RegisterObserver], and [Fail]
    on a non-nil error), [FailedState] or [ErrorMsg] is non-empty only if
    [State] is [StateFailed].  (The converse fails: [SetState(StateFailed)],
    [NewDetails] with [StateFailed] and [Fail] with an empty description or
    from the empty state leave a field empty.  [Fail] on a nil error does not
    return; what holds once a caller recovers from its panic is stated
    apart, over [reachable_with_panics].) *)
Theorem failure_metadata_only_when_Failed w :
  reachable StateCompleted StateFailed w ->
  FailedState (Metadata_ (tracker w)) <> EmptyString \/
  ErrorMsg (Metadata_ (tracker w)) <> EmptyString ->
  State_ (tracker w) = StateFailed.
Proof.
  induction 1 as [tv s0 a | w c R IH | w o R IH].
  - simpl. intros [N | N]; contradiction.
  - destruct c as [s | percent rate | err]; simpl.
    + rewrite tracker_SetState.
      destruct (String.eqb s StateFailed) eqn:E; simpl.
      * intros _. apply String.eqb_eq. exact E.
      * intros [N | N]; contradiction.
    + rewrite tracker_SetDownloadProgress. simpl. exact IH.
    + intros _. apply State_Fail.
  - rewrite tracker_RegisterObserver. simpl. exact IH.
Qed.

(** *** Notification *)

Lemma delivered_cases d :
  (State_ d = StateCompleted -> delivered StateCompleted d = None) /\
  (State_ d <> StateCompleted ->
   exists c : Details Observer,
     delivered StateCompleted d = Some c /\
     TargetVersion c = TargetVersion d /\
     State_ c = State_ d /\
     ActionID c = ActionID d /\
     Metadata_ c = Metadata_ d /\
     observers c = []).
Proof.
  unfold delivered. split.
  - intros E. rewrite E, String.eqb_refl. reflexivity.
  - intros N. apply String.eqb_neq in N. rewrite N.
    eexists. split; [reflexivity |]. repeat split; reflexivity.
Qed.

(** A mutating call ends in [notifyObservers]: it logs, for the tracker [d']
    it leaves, one call per registered observer. *)
Lemma calls_run w (c : Mutation) :
  let d' := tracker (exec (run StateCompleted StateFailed c) w) in
  observers d' = observers (tracker w) /\
  calls (exec (run StateCompleted StateFailed c) w) =
  calls w ++
  map (fun o => mkInvocation o (delivered StateCompleted d')) (observers (tracker w)).
Proof.
  destruct c as [s | percent rate | err]; simpl.
  - unfold exec, SetState, bind, assign, ret.
    destruct (String.eqb s StateFailed); simpl;
      rewrite notifyObservers_spec; simpl; split; reflexivity.
  - unfold exec, SetDownloadProgress, bind, assign.
    rewrite notifyObservers_spec; simpl; split; reflexivity.
  - unfold exec, Fail, bind, this, assign, ret.
    destruct (String.eqb (State_ (tracker w)) StateFailed); simpl;
      rewrite notifyObservers_spec; simpl; split; reflexivity.
Qed.

(** C7. A mutating call ([SetState], [SetDownloadProgress], [Fail]) calls
    every registered observer once, in the order of registration, before it
    returns: the calls it adds to the log are, observer by observer, the list
    of registered observers.  Each call passes [nil] when the state the call
    leaves is [StateCompleted], and otherwise a copy holding the target
    version, state, action id and metadata the call leaves, and no
    observers. *)
Theorem mutation_notifies_every_observer w (c : Mutation) :
  let w' := exec (run StateCompleted StateFailed c) w in
  observers (tracker w') = observers (tracker w) /\
  exists new : list (Invocation Observer),
    calls w' = calls w ++ new /\
    map (@callee Observer) new = observers (tracker w) /\
    length new = length (observers (tracker w)) /\
    forall inv : Invocation Observer, In inv new ->
      (State_ (tracker w') = StateCompleted -> passed inv = None) /\
      (State_ (tracker w') <> StateCompleted ->
       exists copy : Details Observer,
         passed inv = Some copy /\
         TargetVersion copy = TargetVersion (tracker w') /\
         State_ copy = State_ (tracker w') /\
         ActionID copy = ActionID (tracker w') /\
         Metadata_ copy = Metadata_ (tracker w') /\
         observers copy = []).
Proof.
  intros w'. subst w'.
  destruct (calls_run w c) as [Hobs Hcalls].
  split; [exact Hobs |].
  eexists. split; [exact Hcalls |].
  split; [| split].
  - rewrite map_map. simpl. apply map_id.
  - apply length_map.
  - intros inv Hin. apply in_map_iff in Hin. destruct Hin as [o [<- _]].
    simpl. apply delivered_cases.
Qed.

(** C8. [RegisterObserver(fn)] appends [fn] to the observers and calls [fn]
    once, at once: with [nil] if the state is [StateCompleted], and otherwise
    with one copy of the tracker's target version, state, action id and
    metadata.  The tracker's exported fields stay as they are. *)
Theorem RegisterObserver_appends_and_notifies w (fn : Observer) :
  let d := tracker w in
  let w' := exec (RegisterObserver StateCompleted fn) w in
  observers (tracker w') = observers d ++ [fn] /\
  TargetVersion (tracker w') = TargetVersion d /\
  State_ (tracker w') = State_ d /\
  ActionID (tracker w') = ActionID d /\
  Metadata_ (tracker w') = Metadata_ d /\
  exists inv : Invocation Observer,
    calls w' = calls w ++ [inv] /\
    callee inv = fn /\
    (State_ d = StateCompleted -> passed inv = None) /\
    (State_ d <> StateCompleted ->
     exists copy : Details Observer,
       passed inv = Some copy /\
       TargetVersion copy = TargetVersion d /\
       State_ copy = State_ d /\
       ActionID copy = ActionID d /\
       Metadata_ copy = Metadata_ d /\
       observers copy = []).
Proof.
  intros d w'. subst d w'.
  rewrite tracker_RegisterObserver. simpl.
  repeat (split; [reflexivity |]).
  unfold exec, RegisterObserver, bind, assign.
  rewrite notifyObserver_spec. simpl.
  eexists. split; [reflexivity |]. split; [reflexivity |]. simpl.
  apply (delivered_cases (set_observers (observers (tracker w) ++ [fn]) (tracker w))).
Qed.

End TrackerProperties.

(* ===================================================================== *)
(** ** Properties of [Equals] *)
(* ===================================================================== *)

Section EqualsProperties.

Variable Observer : Type.

Implicit Types (mem : Memory Observer) (p q : option addr) (a b : addr).

Lemma ptr_eqb_refl p : ptr_eqb p p = true.
Proof. destruct p as [a |]; simpl; [apply Nat.eqb_refl | reflexivity]. Qed.

Lemma ptr_eqb_sym p q : ptr_eqb p q = ptr_eqb q p.
Proof. destruct p, q; simpl; try reflexivity. apply Nat.eqb_sym. Qed.

Lemma ptr_eqb_eq p q : ptr_eqb p q = true <-> p = q.
Proof.
  destruct p as [a |], q as [b |]; simpl; split; intros H;
    try reflexivity; try discriminate.
  - apply Nat.eqb_eq in H. congruence.
  - injection H as ->. apply Nat.eqb_refl.
Qed.

Lemma time_Equal_refl (t : time.Time) : time.Equal t t = true.
Proof. unfold time.Equal. rewrite !Z.eqb_refl. reflexivity. Qed.

Lemma time_Equal_sym (t u : time.Time) : time.Equal t u = time.Equal u t.
Proof.
  unfold time.Equal.
  rewrite (Z.eqb_sym (time.sec t)), (Z.eqb_sym (time.nsec t)). reflexivity.
Qed.

(** IEEE comparison is antisymmetric, so [==] on floats is symmetric; it is
    reflexive except at NaN. *)
Lemma SFcompare_antisym (x y : float64) :
  SFcompare y x = option_map CompOpp (SFcompare x y).
Proof.
  destruct x as [sx | sx | | sx mx ex], y as [sy | sy | | sy my ey]; simpl;
    try reflexivity;
    try (destruct sx; reflexivity); try (destruct sy; reflexivity);
    try (destruct sx, sy; reflexivity).
  pose proof (Pos.compare_cont_antisym mx my Eq) as A. simpl in A.
  destruct sx, sy; simpl; try reflexivity;
    rewrite (Z.compare_antisym ex ey); destruct (ex ?= ey)%Z; simpl;
    try reflexivity; rewrite <- A; try rewrite CompOpp_involutive;
    reflexivity.
Qed.

Lemma float64_eqb_sym (x y : float64) : float64_eqb x y = float64_eqb y x.
Proof.
  unfold float64_eqb, SFeqb. rewrite (SFcompare_antisym x y).
  destruct (SFcompare x y) as [[| |] |]; reflexivity.
Qed.

Lemma float64_eqb_refl (x : float64) :
  float64_eqb x x = negb (float64_is_nan x).
Proof.
  unfold float64_eqb, SFeqb.
  destruct x as [sx | sx | | sx mx ex]; simpl; try reflexivity.
  - destruct sx; reflexivity.
  - destruct sx; rewrite Z.compare_refl, Pos.compare_cont_refl; reflexivity.
Qed.

Lemma equalTimePointers_refl mem p : equalTimePointers mem p p = true.
Proof. unfold equalTimePointers. rewrite ptr_eqb_refl. reflexivity. Qed.

Lemma equalTimePointers_sym mem p q :
  equalTimePointers mem p q = equalTimePointers mem q p.
Proof.
  unfold equalTimePointers. rewrite (ptr_eqb_sym q p).
  destruct (ptr_eqb p q); [reflexivity |].
  destruct p, q; try reflexivity. apply time_Equal_sym.
Qed.

(** Two non-nil time pointers are compared by the instants they point at,
    whether or not they are the same pointer. *)
Lemma equalTimePointers_instants mem a b :
  equalTimePointers mem (Some a) (Some b) =
  time.Equal (timeAt mem a) (timeAt mem b).
Proof.
  unfold equalTimePointers. destruct (ptr_eqb (Some a) (Some b)) eqn:E.
  - apply ptr_eqb_eq in E. injection E as ->.
    symmetry. apply time_Equal_refl.
  - reflexivity.
Qed.

Lemma Metadata_Equals_sym mem (m n : Metadata) :
  Metadata_Equals mem m n = Metadata_Equals mem n m.
Proof.
  unfold Metadata_Equals.
  rewrite (equalTimePointers_sym mem (ScheduledAt m)),
    (String.eqb_sym (FailedState m)), (String.eqb_sym (ErrorMsg m)),
    (float64_eqb_sym (DownloadPercent m)), (float64_eqb_sym (DownloadRate m)).
  reflexivity.
Qed.

Lemma Metadata_Equals_refl mem (m : Metadata) :
  float64_is_nan (DownloadPercent m) = false ->
  float64_is_nan (DownloadRate m) = false ->
  Metadata_Equals mem m m = true.
Proof.
  intros Hp Hr. unfold Metadata_Equals.
  rewrite equalTimePointers_refl, !String.eqb_refl, !float64_eqb_refl, Hp, Hr.
  reflexivity.
Qed.

Lemma Details_Equals_refl mem p : Details_Equals mem p p = true.
Proof. unfold Details_Equals. rewrite ptr_eqb_refl. reflexivity. Qed.

Lemma Details_Equals_sym mem p q :
  Details_Equals mem p q = Details_Equals mem q p.
Proof.
  unfold Details_Equals. rewrite (ptr_eqb_sym q p).
  destruct (ptr_eqb p q); [reflexivity |].
  destruct p as [a |], q as [b |]; try reflexivity. cbv zeta.
  rewrite (String.eqb_sym (State_ (detailsAt mem a))),
    (String.eqb_sym (TargetVersion (detailsAt mem a))),
    (String.eqb_sym (ActionID (detailsAt mem a))),
    (Metadata_Equals_sym mem (Metadata_ (detailsAt mem a))).
  reflexivity.
Qed.


End EqualsProperties.

(* ===================================================================== *)
(** ** Properties of the codec *)
(* ===================================================================== *)

Section StringLemmas.

Lemma string_length_append (b s : string) :
  String.length (b ++ s) = String.length b + String.length s.
Proof. induction b as [| c b IH]; simpl; [reflexivity | rewrite IH; reflexivity]. Qed.

Lemma substring_whole (s : string) : substring 0 (String.length s) s = s.
Proof. induction s as [| c s IH]; simpl; [reflexivity | rewrite IH; reflexivity]. Qed.

Lemma substring_append_tail (b s : string) :
  substring (String.length b) (String.length s) (b ++ s) = s.
Proof. induction b as [| c b IH]; simpl; [apply substring_whole | exact IH]. Qed.

Lemma substring_append_head (b s : string) :
  substring 0 (String.length b) (b ++ s) = b.
Proof.
  induction b as [| c b IH]; simpl.
  - destruct s; reflexivity.
  - rewrite IH. reflexivity.
Qed.

(** [TrimSuffix] takes a suffix off. *)
Lemma TrimSuffix_append (b suffix : string) :
  strings.TrimSuffix (b ++ suffix) suffix = b.
Proof.
  unfold strings.TrimSuffix, strings.HasSuffix.
  rewrite string_length_append.
  replace (String.length b + String.length suffix - String.length suffix)
    with (String.length b) by lia.
  rewrite substring_append_tail, String.eqb_refl, substring_append_head.
  replace (String.length suffix <=? String.length b + String.length suffix)%nat
    with true by (symmetry; apply Nat.leb_le; lia).
  reflexivity.
Qed.

End StringLemmas.

Section CodecProperties.

Variable HumanSizeWithPrecision : float64 -> Z -> string.
Variable size : Type.
Variable FromHumanSize : string -> result size.
Variable size_to_rate : size -> downloadRate.
Variable json_Marshal : string -> result bytes.
Variable json_Unmarshal : bytes -> result string.

(** An infinite rate, of either sign, is written as the fixed text. *)
Lemma MarshalJSON_infinite (dr : downloadRate) (negative : bool) :
  dr = S754_infinity negative ->
  MarshalJSON HumanSizeWithPrecision json_Marshal dr = json_Marshal "+Inf bps".
Proof. intros ->. unfold MarshalJSON. destruct negative; reflexivity. Qed.

(** Any other rate is written as the library formats it with precision 2,
    followed by [ps]. *)
Lemma MarshalJSON_not_infinite (dr : downloadRate) :
  math.IsInf dr 0 = false ->
  MarshalJSON HumanSizeWithPrecision json_Marshal dr =
  json_Marshal (HumanSizeWithPrecision dr 2 ++ "ps").
Proof. intros H. unfold MarshalJSON. rewrite H. reflexivity. Qed.

(** Reading back the text of a rate that is not infinite hands the library's
    parser what the library's formatter produced. *)
Lemma UnmarshalJSON_of_formatted (dr0 dr : downloadRate) (data : bytes) :
  json_Unmarshal data = Ok (HumanSizeWithPrecision dr 2 ++ "ps") ->
  HumanSizeWithPrecision dr 2 <> "+Inf b" ->
  UnmarshalJSON FromHumanSize size_to_rate json_Unmarshal dr0 data =
  match FromHumanSize (HumanSizeWithPrecision dr 2) with
  | Ok n => (size_to_rate n, None)
  | Err e => (dr0, Some e)
  end.
Proof.
  intros Hj Hne. unfold UnmarshalJSON. rewrite Hj.
  destruct (String.eqb (HumanSizeWithPrecision dr 2 ++ "ps") "+Inf bps") eqn:E.
  - apply String.eqb_eq in E. exfalso. apply Hne.
    rewrite <- (TrimSuffix_append (HumanSizeWithPrecision dr 2) "ps"), E.
    reflexivity.
  - rewrite TrimSuffix_append. reflexivity.
Qed.

(** X18. An infinite rate, of either sign, comes back as positive infinity,
    provided [json.Unmarshal] reads the text [+Inf bps] back from what
    [json.Marshal] wrote for it. *)
Lemma UnmarshalJSON_MarshalJSON_infinite
  (dr0 dr : downloadRate) (negative : bool) (data : bytes) :
  (forall written : bytes,
     json_Marshal "+Inf bps" = Ok written ->
     json_Unmarshal written = Ok "+Inf bps") ->
  dr = S754_infinity negative ->
  MarshalJSON HumanSizeWithPrecision json_Marshal dr = Ok data ->
  UnmarshalJSON FromHumanSize size_to_rate json_Unmarshal dr0 data =
  (math.Inf 1, None).
Proof.
  intros Hjson Hdr Hdata.
  rewrite (MarshalJSON_infinite Hdr) in Hdata.
  unfold UnmarshalJSON. rewrite (Hjson _ Hdata). reflexivity.
Qed.

(** X20. [UnmarshalJSON], given what the two library calls answer.  An input
    that [json.Unmarshal] refuses fails with that error.  The text [+Inf bps]
    gives positive infinity.  Any other text is handed to
    [units.FromHumanSize] without its trailing [ps], if it has one, and whole
    if it has none: the value that comes back becomes the rate, and an error
    that comes back is returned as it is.  The call succeeds only on
    [+Inf bps] or on a text the parser accepted, and a call that fails leaves
    [*dr] as it was. *)
Theorem UnmarshalJSON_outcome (dr : downloadRate) (data : bytes) :
  let out := UnmarshalJSON FromHumanSize size_to_rate json_Unmarshal dr data in
  (forall e : error, json_Unmarshal data = Err e -> out = (dr, Some e)) /\
  (json_Unmarshal data = Ok "+Inf bps" -> out = (S754_infinity false, None)) /\
  (forall text : string,
     json_Unmarshal data = Ok text -> text <> "+Inf bps" ->
     (forall n : size,
        FromHumanSize (strings.TrimSuffix text "ps") = Ok n ->
        out = (size_to_rate n, None)) /\
     (forall e : error,
        FromHumanSize (strings.TrimSuffix text "ps") = Err e ->
        out = (dr, Some e))) /\
  (snd out = None ->
   exists text : string,
     json_Unmarshal data = Ok text /\
     (text = "+Inf bps" \/
      exists n : size, FromHumanSize (strings.TrimSuffix text "ps") = Ok n)) /\
  (forall e : error, snd out = Some e -> fst out = dr) /\
  (forall body : string,
     json_Unmarshal data = Ok (body ++ "ps") -> body <> "+Inf b" ->
     out = match FromHumanSize body with
           | Ok n => (size_to_rate n, None)
           | Err e => (dr, Some e)
           end) /\
  (forall text : string,
     json_Unmarshal data = Ok text -> strings.HasSuffix text "ps" = false ->
     out = match FromHumanSize text with
           | Ok n => (size_to_rate n, None)
           | Err e => (dr, Some e)
           end).
Proof.
  intros out. subst out. unfold UnmarshalJSON.
  destruct (json_Unmarshal data) as [text | e0].
  - destruct (String.eqb text "+Inf bps") eqn:E.
    + apply String.eqb_eq in E. subst text.
      split; [discriminate |]. split; [reflexivity |].
      split; [intros text' [= <-] N; contradiction |].
      split.
      { intros _. exists "+Inf bps". split; [reflexivity | left; reflexivity]. }
      split; [discriminate |].
      split.
      * intros body [= Hb] N. exfalso. apply N.
        rewrite <- (TrimSuffix_append body "ps"), <- Hb. reflexivity.
      * intros text' [= <-] Hs. discriminate Hs.
    + apply String.eqb_neq in E.
      split; [discriminate |]. split; [intros [= ->]; contradiction |].
      assert (Hbody : forall body : string,
                Ok text = Ok (body ++ "ps") ->
                strings.TrimSuffix text "ps" = body).
      { intros body [= ->]. apply TrimSuffix_append. }
      assert (Hwhole : forall text' : string,
                Ok text = Ok text' -> strings.HasSuffix text' "ps" = false ->
                strings.TrimSuffix text "ps" = text').
      { intros text' [= <-] Hs. unfold strings.TrimSuffix. rewrite Hs.
        reflexivity. }
      destruct (FromHumanSize (strings.TrimSuffix text "ps")) as [n | e1] eqn:P.
      * split.
        { intros text' [= <-] _. rewrite P.
          split; [intros n' [= <-]; reflexivity | discriminate]. }
        split.
        { intros _. exists text. split; [reflexivity |].
          right. exists n. exact P. }
        split; [discriminate |].
        split.
        -- intros body Hb _. rewrite <- (Hbody body Hb), P. reflexivity.
        -- intros text' Ht Hs. rewrite <- (Hwhole text' Ht Hs), P. reflexivity.
      * split.
        { intros text' [= <-] _. rewrite P.
          split; [discriminate | intros e' [= <-]; reflexivity]. }
        split; [discriminate |].
        split; [reflexivity |].
        split.
        -- intros body Hb _. rewrite <- (Hbody body Hb), P. reflexivity.
        -- intros text' Ht Hs. rewrite <- (Hwhole text' Ht Hs), P. reflexivity.
  - split; [intros e [= <-]; reflexivity |].
    split; [discriminate |]. split; [discriminate |].
    split; [discriminate |]. split; [reflexivity |].
    split; discriminate.
Qed.

End CodecProperties.

(* ===================================================================== *)
(** ** Closed examples *)
(* ===================================================================== *)

(** The scenario: a fresh tracker, a download progress, a failure, and a new
    state that clears the failure. *)
Example scenario :
  let w1 := exec (SetDownloadProgress UPG_COMPLETED half rate_2048) fresh_world in
  let w2 := exec (Fail UPG_COMPLETED UPG_FAILED disk_full) w1 in
  let w3 := exec (SetState UPG_COMPLETED UPG_FAILED UPG_DOWNLOADING) w2 in
  DownloadPercent (Metadata_ (tracker w1)) = half /\
  DownloadRate (Metadata_ (tracker w1)) = rate_2048 /\
  State_ (tracker w2) = UPG_FAILED /\
  FailedState (Metadata_ (tracker w2)) = UPG_REQUESTED /\
  ErrorMsg (Metadata_ (tracker w2)) = "disk full" /\
  State_ (tracker w3) = UPG_DOWNLOADING /\
  FailedState (Metadata_ (tracker w3)) = EmptyString /\
  ErrorMsg (Metadata_ (tracker w3)) = EmptyString.
Proof. repeat split. Qed.

(** Positive infinity through the codec and back, with the stand-in JSON
    functions. *)
Example infinite_rate_round_trip :
  exists data : bytes,
    MarshalJSON sample_HumanSizeWithPrecision sample_json_Marshal (math.Inf 1) =
    Ok data /\
    UnmarshalJSON sample_FromHumanSize sample_size_to_rate sample_json_Unmarshal
      rate_2048 data = (math.Inf 1, None).
Proof. eexists. split; reflexivity. Qed.

(** The failed tracker is reachable. *)
Lemma reachable_failed_world : reachable UPG_COMPLETED UPG_FAILED failed_world.
Proof.
  apply (reachable_run (CallFail disk_full)). apply reachable_NewDetails.
Qed.

(** C1, as the claim states it, fails: a fresh tracker brought to
    [StateFailed] by [SetState] is in the failed state with both fields
    empty. *)
Lemma Failed_with_empty_failure_metadata :
  let w := exec (SetState UPG_COMPLETED UPG_FAILED UPG_FAILED) fresh_world in
  reachable UPG_COMPLETED UPG_FAILED w /\
  State_ (tracker w) = UPG_FAILED /\
  FailedState (Metadata_ (tracker w)) = EmptyString /\
  ErrorMsg (Metadata_ (tracker w)) = EmptyString /\
  ~ (FailedState (Metadata_ (tracker w)) <> EmptyString /\
     ErrorMsg (Metadata_ (tracker w)) <> EmptyString <->
     State_ (tracker w) = UPG_FAILED).
Proof.
  cbv zeta. split.
  - apply (reachable_run (CallSetState UPG_FAILED)). apply reachable_NewDetails.
  - repeat split. intros [_ H]. destruct (H eq_refl) as [N _]. apply N. reflexivity.
Qed.

(** C1, amended, on the failed tracker: its error message is not empty, and
    its state is the failed one. *)
Lemma failure_metadata_only_when_Failed_witness :
  State_ (tracker failed_world) = UPG_FAILED.
Proof.
  apply (@failure_metadata_only_when_Failed nat UPG_COMPLETED UPG_FAILED failed_world).
  - exact reachable_failed_world.
  - right. discriminate.
Defined.

(** C2 on the fresh tracker: [Fail] records the state it was in. *)
Lemma Fail_records_failure_witness :
  FailedState (Metadata_ (tracker failed_world)) = UPG_REQUESTED.
Proof.
  refine (proj1 (proj2 (proj2
            (@Fail_records_failure nat UPG_COMPLETED UPG_FAILED fresh_world
               disk_full))) _).
  discriminate.
Defined.

(** C3 on the failed tracker: a state other than the failed one clears both
    fields. *)
Lemma SetState_assigns_and_clears_witness :
  let d' := tracker (exec (SetState UPG_COMPLETED UPG_FAILED UPG_DOWNLOADING)
                       failed_world) in
  FailedState (Metadata_ d') = EmptyString /\ ErrorMsg (Metadata_ d') = EmptyString.
Proof.
  refine (proj1 (proj2
            (@SetState_assigns_and_clears nat UPG_COMPLETED UPG_FAILED
               failed_world UPG_DOWNLOADING)) _).
  discriminate.
Defined.

(** C7 on the tracker with observers 7 and 9: [SetState] to the completed state
    calls 7, then 9, each with [nil]. *)
Lemma mutation_notifies_every_observer_witness :
  let w' := exec (run UPG_COMPLETED UPG_FAILED (CallSetState UPG_COMPLETED))
              observed_world in
  exists new : list (Invocation nat),
    calls w' = (calls observed_world ++ new)%list /\
    map (@callee nat) new = [7; 9] /\
    forall inv : Invocation nat, In inv new -> passed inv = None.
Proof.
  destruct (@mutation_notifies_every_observer nat UPG_COMPLETED UPG_FAILED
              observed_world (CallSetState UPG_COMPLETED))
    as [_ [new [Hcalls [Hmap [_ Hpassed]]]]].
  exists new. split; [exact Hcalls |]. split; [exact Hmap |].
  intros inv Hin. apply (Hpassed inv Hin). reflexivity.
Defined.

(** C8 on the tracker with observers 7 and 9: registering 11 puts it last and
    calls it once with a copy. *)
Lemma RegisterObserver_appends_and_notifies_witness :
  let w' := exec (RegisterObserver UPG_COMPLETED 11) observed_world in
  observers (tracker w') = [7; 9; 11] /\
  exists (inv : Invocation nat) (copy : Details nat),
    calls w' = (calls observed_world ++ [inv])%list /\
    callee inv = 11 /\
    passed inv = Some copy /\
    State_ copy = UPG_REQUESTED /\
    observers copy = [].
Proof.
  destruct (@RegisterObserver_appends_and_notifies nat UPG_COMPLETED
              observed_world 11)
    as [Hobs [_ [_ [_ [_ [inv [Hcalls [Hcallee [_ Hcopy]]]]]]]]].
  split; [exact Hobs |].
  destruct Hcopy as [copy [Hp [_ [HS [_ [_ Ho]]]]]]; [discriminate |].
  exists inv, copy. repeat split; assumption.
Defined.


(** Two [ScheduledAt] pointers to one instant shown in two locations compare
    equal, and so do the trackers that hold them. *)
Example ScheduledAt_compared_by_instant :
  timeAt scheduled_trackers 0 <> timeAt scheduled_trackers 1 /\
  ScheduledAt (Metadata_ (detailsAt scheduled_trackers 0)) <>
  ScheduledAt (Metadata_ (detailsAt scheduled_trackers 1)) /\
  Details_Equals scheduled_trackers (Some 0) (Some 1) = true.
Proof. repeat split; discriminate. Qed.


(** X20 on a JSON string the size parser refuses: its error comes back and the
    rate stays as it was. *)
Lemma UnmarshalJSON_outcome_witness :
  let data := (Byte.x22 :: list_byte_of_string "fastps" ++ [Byte.x22])%list in
  UnmarshalJSON sample_FromHumanSize sample_size_to_rate sample_json_Unmarshal
    rate_2048 data =
  (rate_2048, Some (errorString "invalid size")).
Proof.
  cbv zeta.
  refine (proj2 (proj1 (proj2 (proj2
            (@UnmarshalJSON_outcome Z sample_FromHumanSize sample_size_to_rate
               sample_json_Unmarshal rate_2048 _))) "fastps" _ _) _ _).
  - reflexivity.
  - discriminate.
  - reflexivity.
Defined.

(* ===================================================================== *)
(** ** The tracker over sequences of calls *)
(* ===================================================================== *)

Section RunProperties.

Variable Observer : Type.
Variable StateCompleted : State.
Variable StateFailed : State.

Implicit Types (w : World Observer) (d : Details Observer) (s : State).

Local Open Scope list_scope.

Lemma calls_RegisterObserver (o : Observer) w :
  let w' := exec (RegisterObserver StateCompleted o) w in
  calls w' = calls w ++ [mkInvocation o (delivered StateCompleted (tracker w'))].
Proof.
  intros w'. subst w'. unfold exec, RegisterObserver, bind, assign.
  rewrite notifyObserver_spec. reflexivity.
Qed.

Lemma identity_fields_run (c : Mutation) w :
  let d' := tracker (exec (run StateCompleted StateFailed c) w) in
  TargetVersion d' = TargetVersion (tracker w) /\
  ActionID d' = ActionID (tracker w).
Proof.
  destruct c as [s | percent rate | err]; simpl.
  - rewrite tracker_SetState. destruct (String.eqb s StateFailed); split; reflexivity.
  - rewrite tracker_SetDownloadProgress. split; reflexivity.
  - rewrite tracker_Fail. split; reflexivity.
Qed.

Lemma delivered_Some d (copy : Details Observer) :
  delivered StateCompleted d = Some copy ->
  State_ d <> StateCompleted /\
  copy = {| TargetVersion := TargetVersion d; State_ := State_ d;
            ActionID := ActionID d; Metadata_ := Metadata_ d;
            observers := [] |}.
Proof.
  unfold delivered.
  destruct (String.eqb (State_ d) StateCompleted) eqn:E; [discriminate |].
  intros [= <-]. split; [apply String.eqb_neq; exact E | reflexivity].
Qed.

(** The failure metadata is set only in the failed state: kept by every
    call. *)
Lemma failure_metadata_kept w :
  reachable StateCompleted StateFailed w ->
  FailedState (Metadata_ (tracker w)) <> EmptyString \/
  ErrorMsg (Metadata_ (tracker w)) <> EmptyString ->
  State_ (tracker w) = StateFailed.
Proof.
  intros R. induction R as [tv s0 a | w c R IH | w o R IH].
  - simpl. intros [N | N]; contradiction.
  - destruct c as [s | percent rate | err]; simpl.
    + rewrite tracker_SetState.
      destruct (String.eqb s StateFailed) eqn:E; simpl.
      * intros _. apply String.eqb_eq. exact E.
      * intros [N | N]; contradiction.
    + rewrite tracker_SetDownloadProgress. exact IH.
    + intros _. rewrite tracker_Fail. reflexivity.
  - rewrite tracker_RegisterObserver. exact IH.
Qed.

(** Every call ever made to an observer went to a registered observer, and
    what it passed is a copy of a tracker as it once was. *)
Lemma log_invariant w :
  reachable StateCompleted StateFailed w ->
  forall inv : Invocation Observer, In inv (calls w) ->
    In (callee inv) (observers (tracker w)) /\
    forall copy : Details Observer, passed inv = Some copy ->
      observers copy = [] /\
      State_ copy <> StateCompleted /\
      TargetVersion copy = TargetVersion (tracker w) /\
      ActionID copy = ActionID (tracker w) /\
      (FailedState (Metadata_ copy) <> EmptyString \/
       ErrorMsg (Metadata_ copy) <> EmptyString ->
       State_ copy = StateFailed).
Proof.
  intros R. induction R as [tv s0 a | w c R IH | w o R IH].
  - simpl. contradiction.
  - pose proof (failure_metadata_kept (reachable_run c R)) as HF.
    destruct (calls_run StateCompleted StateFailed w c) as [Hobs Hcalls].
    destruct (identity_fields_run c w) as [HT HA].
    cbv zeta in Hobs, HT, HA. rewrite Hcalls, Hobs, HT, HA.
    intros inv Hin. apply in_app_or in Hin. destruct Hin as [Hin | Hin].
    + exact (IH inv Hin).
    + apply in_map_iff in Hin. destruct Hin as [o [<- Ho]]. simpl.
      split; [exact Ho |]. intros copy Hc.
      apply delivered_Some in Hc. destruct Hc as [HN ->]. simpl.
      rewrite HT, HA. repeat split; try assumption.
  - pose proof (failure_metadata_kept (reachable_RegisterObserver o R)) as HF.
    rewrite calls_RegisterObserver. rewrite tracker_RegisterObserver in *.
    simpl in *. intros inv Hin. apply in_app_or in Hin.
    destruct Hin as [Hin | [<- | []]].
    + destruct (IH inv Hin) as [H1 H2]. split; [| exact H2].
      apply in_or_app. left. exact H1.
    + simpl. split; [apply in_or_app; right; left; reflexivity |].
      intros copy Hc. apply delivered_Some in Hc. destruct Hc as [HN ->].
      simpl in *. repeat split; assumption.
Qed.

(** X1. Whatever the owner calls, in whatever order, the target version and
    the action id stay what they are. *)
Theorem identity_fields_never_change (cs : list (Call Observer)) w :
  let d' := tracker (performAll StateCompleted StateFailed cs w) in
  TargetVersion d' = TargetVersion (tracker w) /\
  ActionID d' = ActionID (tracker w).
Proof.
  revert w. induction cs as [| c cs IH]; intros w; simpl.
  - split; reflexivity.
  - destruct (IH (exec (perform StateCompleted StateFailed c) w)) as [HT HA].
    rewrite HT, HA. destruct c as [m | o]; simpl.
    + apply identity_fields_run.
    + rewrite tracker_RegisterObserver. split; reflexivity.
Qed.

(** X2. The observers of a tracker are those it had, followed by every
    observer registered since, in the order of registration, repeats
    included: no call removes or reorders an observer. *)
Theorem observers_are_the_registered (cs : list (Call Observer)) w :
  observers (tracker (performAll StateCompleted StateFailed cs w)) =
  observers (tracker w) ++ registered cs.
Proof.
  revert w. induction cs as [| c cs IH]; intros w; simpl.
  - rewrite app_nil_r. reflexivity.
  - rewrite IH. destruct c as [m | o]; simpl.
    + destruct (calls_run StateCompleted StateFailed w m) as [Hobs _].
      cbv zeta in Hobs. rewrite Hobs. reflexivity.
    + rewrite tracker_RegisterObserver. simpl. rewrite <- app_assoc. reflexivity.
Qed.

(** X3. A sequence of mutating calls notifies in the order of the calls: the
    calls to observers it makes are, mutation after mutation, one call per
    registered observer passing the tracker that mutation left.  No update is
    dropped, merged or moved. *)
Theorem mutations_notify_in_call_order (ms : list Mutation) w :
  calls (performAll StateCompleted StateFailed (map DoMutation ms) w) =
  calls w ++
  flat_map
    (fun d => map (fun o => mkInvocation o (delivered StateCompleted d))
                  (observers (tracker w)))
    (trackersAfter StateCompleted StateFailed ms w).
Proof.
  revert w. induction ms as [| m ms IH]; intros w; simpl.
  - rewrite app_nil_r. reflexivity.
  - rewrite IH.
    destruct (calls_run StateCompleted StateFailed w m) as [Hobs Hcalls].
    cbv zeta in Hobs. rewrite Hcalls, Hobs, <- app_assoc. reflexivity.
Qed.

(** X4. In every reachable world, each call made to an observer so far went
    to an observer that is registered. *)
Theorem only_registered_observers_are_called w (inv : Invocation Observer) :
  reachable StateCompleted StateFailed w ->
  In inv (calls w) ->
  In (callee inv) (observers (tracker w)).
Proof. intros R Hin. exact (proj1 (log_invariant R inv Hin)). Qed.

Lemma tracker_Fail_nil w :
  tracker (exec (Fail_nil StateFailed) w) =
  if String.eqb (State_ (tracker w)) StateFailed
  then tracker w
  else set_Metadata
         (set_FailedState (State_ (tracker w)) (Metadata_ (tracker w)))
         (tracker w).
Proof.
  unfold exec, Fail_nil, bind, this, assign, ret.
  destruct (String.eqb (State_ (tracker w)) StateFailed); simpl;
    [destruct w |]; reflexivity.
Qed.

(** [Fail(nil)] panics before it notifies: it calls no observer. *)
Lemma calls_Fail_nil w : calls (exec (Fail_nil StateFailed) w) = calls w.
Proof.
  unfold exec, Fail_nil, bind, this, assign, ret.
  destruct (String.eqb (State_ (tracker w)) StateFailed); reflexivity.
Qed.

Lemma reachable_is_with_panics w :
  reachable StateCompleted StateFailed w ->
  reachable_with_panics StateCompleted StateFailed w.
Proof.
  induction 1 as [tv s0 a | w c R IH | w o R IH].
  - apply with_panics_NewDetails.
  - apply with_panics_run. exact IH.
  - apply with_panics_RegisterObserver. exact IH.
Qed.

(** What the failure metadata says of the state, panics of [Fail(nil)]
    included. *)
Lemma failure_metadata_kept_with_panics w :
  reachable_with_panics StateCompleted StateFailed w ->
  (ErrorMsg (Metadata_ (tracker w)) <> EmptyString ->
   State_ (tracker w) = StateFailed) /\
  (FailedState (Metadata_ (tracker w)) <> EmptyString ->
   State_ (tracker w) = StateFailed \/
   FailedState (Metadata_ (tracker w)) = State_ (tracker w)).
Proof.
  intros R. induction R as [tv s0 a | w c R IH | w o R IH | w R IH].
  - simpl. split; intros N; contradiction.
  - destruct c as [s | percent rate | err]; simpl.
    + rewrite tracker_SetState.
      destruct (String.eqb s StateFailed) eqn:E; simpl.
      * apply String.eqb_eq in E. split; intros _; [| left]; exact E.
      * split; intros N; contradiction.
    + rewrite tracker_SetDownloadProgress. exact IH.
    + rewrite tracker_Fail. simpl. split; intros _; [| left]; reflexivity.
  - rewrite tracker_RegisterObserver. exact IH.
  - rewrite tracker_Fail_nil.
    destruct (String.eqb (State_ (tracker w)) StateFailed) eqn:E;
      [exact IH |].
    simpl. split; [exact (proj1 IH) | intros _; right; reflexivity].
Qed.

(** The log, panics of [Fail(nil)] included. *)
Lemma log_invariant_with_panics w :
  reachable_with_panics StateCompleted StateFailed w ->
  forall inv : Invocation Observer, In inv (calls w) ->
    forall copy : Details Observer, passed inv = Some copy ->
      observers copy = [] /\
      State_ copy <> StateCompleted /\
      TargetVersion copy = TargetVersion (tracker w) /\
      ActionID copy = ActionID (tracker w) /\
      (ErrorMsg (Metadata_ copy) <> EmptyString -> State_ copy = StateFailed) /\
      (FailedState (Metadata_ copy) <> EmptyString ->
       State_ copy = StateFailed \/ FailedState (Metadata_ copy) = State_ copy).
Proof.
  intros R. induction R as [tv s0 a | w c R IH | w o R IH | w R IH].
  - simpl. contradiction.
  - pose proof (failure_metadata_kept_with_panics (with_panics_run c R)) as HF.
    destruct (calls_run StateCompleted StateFailed w c) as [Hobs Hcalls].
    destruct (identity_fields_run c w) as [HT HA].
    cbv zeta in Hobs, HT, HA. rewrite Hcalls, HT, HA.
    intros inv Hin. apply in_app_or in Hin. destruct Hin as [Hin | Hin].
    + exact (IH inv Hin).
    + apply in_map_iff in Hin. destruct Hin as [o [<- Ho]]. simpl.
      intros copy Hc. apply delivered_Some in Hc. destruct Hc as [HN ->]. simpl.
      rewrite HT, HA. destruct HF as [HF1 HF2].
      repeat split; assumption.
  - pose proof (failure_metadata_kept_with_panics
                  (with_panics_RegisterObserver o R)) as HF.
    rewrite calls_RegisterObserver. rewrite tracker_RegisterObserver in *.
    simpl in *. intros inv Hin. apply in_app_or in Hin.
    destruct Hin as [Hin | [<- | []]].
    + exact (IH inv Hin).
    + simpl. intros copy Hc. apply delivered_Some in Hc. destruct Hc as [HN ->].
      simpl in *. destruct HF as [HF1 HF2]. repeat split; assumption.
  - rewrite calls_Fail_nil, tracker_Fail_nil.
    destruct (String.eqb (State_ (tracker w)) StateFailed); exact IH.
Qed.

(** X5. Each snapshot passed to an observer so far holds no observers, is not
    in the completed state, and has the target version and action id of the
    tracker; its error message is non-empty only if it is in the failed
    state, and its pre-failure state is non-empty only if it is in the failed
    state or is the very state it is in.  This holds in every world, panics
    of [Fail(nil)] the owner recovered from included.  In a world reached by
    calls that return, the snapshot carries failure metadata only if it is in
    the failed state. *)
Theorem snapshots_passed_are_consistent w (inv : Invocation Observer)
  (copy : Details Observer) :
  reachable_with_panics StateCompleted StateFailed w ->
  In inv (calls w) ->
  passed inv = Some copy ->
  observers copy = [] /\
  State_ copy <> StateCompleted /\
  TargetVersion copy = TargetVersion (tracker w) /\
  ActionID copy = ActionID (tracker w) /\
  (ErrorMsg (Metadata_ copy) <> EmptyString -> State_ copy = StateFailed) /\
  (FailedState (Metadata_ copy) <> EmptyString ->
   State_ copy = StateFailed \/ FailedState (Metadata_ copy) = State_ copy) /\
  (reachable StateCompleted StateFailed w ->
   FailedState (Metadata_ copy) <> EmptyString \/
   ErrorMsg (Metadata_ copy) <> EmptyString ->
   State_ copy = StateFailed).
Proof.
  intros R Hin Hc.
  destruct (log_invariant_with_panics R inv Hin Hc)
    as [H1 [H2 [H3 [H4 [H5 H6]]]]].
  repeat split; try assumption.
  intros R'. exact (proj2 (proj2 (proj2 (proj2
    (proj2 (log_invariant R' inv Hin) copy Hc))))).
Qed.

(** X21. Over any sequence of calls, [Fail(nil)] and the recovery from its
    panic included: the error message is non-empty only in the failed state,
    and the pre-failure state is non-empty only in the failed state or when it
    is the very state the tracker is in (as [Fail(nil)] leaves it). *)
Theorem failure_metadata_with_panics w :
  reachable_with_panics StateCompleted StateFailed w ->
  (ErrorMsg (Metadata_ (tracker w)) <> EmptyString ->
   State_ (tracker w) = StateFailed) /\
  (FailedState (Metadata_ (tracker w)) <> EmptyString ->
   State_ (tracker w) = StateFailed \/
   FailedState (Metadata_ (tracker w)) = State_ (tracker w)).
Proof. exact (@failure_metadata_kept_with_panics w). Qed.

(** X22. [Fail] on a nil error, up to its panic: when the state is not the
    failed one it has recorded that state as pre-failure state, and in any case
    it has changed neither the state nor the error message nor any other
    field, and has called no observer. *)
Theorem Fail_nil_before_the_panic w :
  let d := tracker w in
  let w' := exec (Fail_nil StateFailed) w in
  let d' := tracker w' in
  State_ d' = State_ d /\
  ErrorMsg (Metadata_ d') = ErrorMsg (Metadata_ d) /\
  (State_ d <> StateFailed -> FailedState (Metadata_ d') = State_ d) /\
  (State_ d = StateFailed ->
   FailedState (Metadata_ d') = FailedState (Metadata_ d)) /\
  TargetVersion d' = TargetVersion d /\
  ActionID d' = ActionID d /\
  ScheduledAt (Metadata_ d') = ScheduledAt (Metadata_ d) /\
  DownloadPercent (Metadata_ d') = DownloadPercent (Metadata_ d) /\
  DownloadRate (Metadata_ d') = DownloadRate (Metadata_ d) /\
  observers d' = observers d /\
  calls w' = calls w.
Proof.
  intros d w' d'. subst d w' d'.
  rewrite calls_Fail_nil, tracker_Fail_nil.
  destruct (String.eqb (State_ (tracker w)) StateFailed) eqn:E; simpl.
  - apply String.eqb_eq in E.
    repeat split; try reflexivity. intros N. contradiction.
  - apply String.eqb_neq in E.
    repeat split; try reflexivity. intros N. contradiction.
Qed.

(** X6. Provided the failed state is not the empty string, the recorded
    pre-failure state is never the failed state itself, in any reachable
    world. *)
Theorem FailedState_is_never_StateFailed w :
  StateFailed <> EmptyString ->
  reachable StateCompleted StateFailed w ->
  FailedState (Metadata_ (tracker w)) <> StateFailed.
Proof.
  intros HE R. induction R as [tv s0 a | w c R IH | w o R IH].
  - simpl. intros H. apply HE. symmetry. exact H.
  - destruct c as [s | percent rate | err]; simpl.
    + rewrite tracker_SetState.
      destruct (String.eqb s StateFailed); simpl; [exact IH |].
      intros H. apply HE. symmetry. exact H.
    + rewrite tracker_SetDownloadProgress. exact IH.
    + rewrite FailedState_Fail.
      destruct (String.eqb (State_ (tracker w)) StateFailed) eqn:E;
        [exact IH | apply String.eqb_neq; exact E].
  - rewrite tracker_RegisterObserver. exact IH.
Qed.

End RunProperties.

(* ===================================================================== *)
(** ** How the methods compose *)
(* ===================================================================== *)

Section Compositions.

Variable Observer : Type.
Variable StateCompleted : State.
Variable StateFailed : State.

Implicit Types (w : World Observer) (d : Details Observer) (s : State).

Local Open Scope list_scope.

(** What is passed to observers does not depend on the observers of the
    tracker. *)
Lemma delivered_set_observers (os : list Observer) d :
  delivered StateCompleted (set_observers os d) = delivered StateCompleted d.
Proof. reflexivity. Qed.

Lemma mutations_without_observers (ms : list Mutation) w :
  observers (tracker w) = [] ->
  let w' := performAll StateCompleted StateFailed (map DoMutation ms) w in
  calls w' = calls w /\ observers (tracker w') = [].
Proof.
  revert w. induction ms as [| m ms IH]; intros w Hnone; simpl.
  - split; [reflexivity | exact Hnone].
  - destruct (calls_run StateCompleted StateFailed w m) as [Hobs Hcalls].
    cbv zeta in Hobs. rewrite Hnone in Hobs, Hcalls. simpl in Hcalls.
    rewrite app_nil_r in Hcalls.
    destruct (IH _ Hobs) as [H1 H2]. cbv zeta in H1, H2.
    rewrite H1, Hcalls. split; [reflexivity | exact H2].
Qed.

(** X7. [SetDownloadProgress] stores the percent and the rate exactly as
    given, whatever they are (no bound is checked), changes no other field,
    and calls every registered observer once, in order, with the tracker it
    leaves. *)
Theorem SetDownloadProgress_stores_as_given (percent rate : float64) w :
  let w' := exec (SetDownloadProgress StateCompleted percent rate) w in
  let d := tracker w in
  let d' := tracker w' in
  DownloadPercent (Metadata_ d') = percent /\
  DownloadRate (Metadata_ d') = rate /\
  State_ d' = State_ d /\
  FailedState (Metadata_ d') = FailedState (Metadata_ d) /\
  ErrorMsg (Metadata_ d') = ErrorMsg (Metadata_ d) /\
  ScheduledAt (Metadata_ d') = ScheduledAt (Metadata_ d) /\
  TargetVersion d' = TargetVersion d /\
  ActionID d' = ActionID d /\
  observers d' = observers d /\
  calls w' =
  calls w ++ map (fun o => mkInvocation o (delivered StateCompleted d'))
                 (observers d).
Proof.
  intros w' d d'. subst w' d d'.
  destruct (calls_run StateCompleted StateFailed w
              (CallSetDownloadProgress percent rate)) as [_ Hcalls].
  simpl in Hcalls. rewrite Hcalls, tracker_SetDownloadProgress.
  repeat split; reflexivity.
Qed.

(** X8. A [SetState] to a state other than the failed one wipes what an
    earlier [Fail] or [SetState] did: the tracker it leaves is the one it
    would have left without that earlier call. *)
Theorem SetState_overrides_earlier_state_and_failure s w :
  s <> StateFailed ->
  (forall err : error,
     tracker (exec (SetState StateCompleted StateFailed s)
                (exec (Fail StateCompleted StateFailed err) w)) =
     tracker (exec (SetState StateCompleted StateFailed s) w)) /\
  (forall s1 : State,
     tracker (exec (SetState StateCompleted StateFailed s)
                (exec (SetState StateCompleted StateFailed s1) w)) =
     tracker (exec (SetState StateCompleted StateFailed s) w)).
Proof.
  intros N. apply String.eqb_neq in N. split.
  - intros err. rewrite !tracker_SetState, tracker_Fail, N.
    destruct (String.eqb (State_ (tracker w)) StateFailed); reflexivity.
  - intros s1. rewrite !tracker_SetState, N.
    destruct (String.eqb s1 StateFailed); reflexivity.
Qed.

(** X9. [SetDownloadProgress] and a change of state ([SetState] or [Fail])
    leave the same tracker in either order. *)
Theorem SetDownloadProgress_commutes_with_state_changes
  (percent rate : float64) w :
  (forall s : State,
     tracker (exec (SetDownloadProgress StateCompleted percent rate)
                (exec (SetState StateCompleted StateFailed s) w)) =
     tracker (exec (SetState StateCompleted StateFailed s)
                (exec (SetDownloadProgress StateCompleted percent rate) w))) /\
  (forall err : error,
     tracker (exec (SetDownloadProgress StateCompleted percent rate)
                (exec (Fail StateCompleted StateFailed err) w)) =
     tracker (exec (Fail StateCompleted StateFailed err)
                (exec (SetDownloadProgress StateCompleted percent rate) w))).
Proof.
  split.
  - intros s. rewrite !tracker_SetDownloadProgress, !tracker_SetState,
      tracker_SetDownloadProgress.
    destruct (String.eqb s StateFailed); reflexivity.
  - intros err. rewrite !tracker_SetDownloadProgress, !tracker_Fail,
      tracker_SetDownloadProgress. simpl.
    destruct (String.eqb (State_ (tracker w)) StateFailed); reflexivity.
Qed.

(** X10. The completed state is not final for the tracker: provided the two
    constants differ, [Fail] on a completed tracker moves it to the failed
    state with the completed state as pre-failure state, and the observers,
    which were passed [nil] while it was completed, are passed a snapshot
    again. *)
Theorem completed_tracker_can_fail (err : error) w :
  StateCompleted <> StateFailed ->
  State_ (tracker w) = StateCompleted ->
  let w' := exec (Fail StateCompleted StateFailed err) w in
  State_ (tracker w') = StateFailed /\
  FailedState (Metadata_ (tracker w')) = StateCompleted /\
  ErrorMsg (Metadata_ (tracker w')) = Error err /\
  calls w' =
  calls w ++ map (fun o => mkInvocation o (Some (set_observers [] (tracker w'))))
                 (observers (tracker w)).
Proof.
  intros Hne Hc w'. subst w'.
  assert (E : String.eqb StateCompleted StateFailed = false)
    by (apply String.eqb_neq; exact Hne).
  split; [apply State_Fail |].
  split; [rewrite FailedState_Fail, Hc, E; reflexivity |].
  split; [apply ErrorMsg_Fail |].
  destruct (calls_run StateCompleted StateFailed w (CallFail err)) as [_ Hcalls].
  simpl in Hcalls. rewrite Hcalls. f_equal. apply map_ext. intros o. f_equal.
  unfold delivered, set_observers.
  rewrite State_Fail, String.eqb_sym, E. reflexivity.
Qed.

(** X11. Registering is not idempotent: an observer registered twice is called
    twice by every later mutating call, after the observers registered
    before it. *)
Theorem observer_registered_twice_is_called_twice (o : Observer)
  (c : Mutation) w :
  let w2 := exec (RegisterObserver StateCompleted o)
              (exec (RegisterObserver StateCompleted o) w) in
  let w' := exec (run StateCompleted StateFailed c) w2 in
  let p := delivered StateCompleted (tracker w') in
  observers (tracker w2) = observers (tracker w) ++ [o; o] /\
  calls w' =
  calls w2 ++ map (fun o' => mkInvocation o' p) (observers (tracker w)) ++
  [mkInvocation o p; mkInvocation o p].
Proof.
  intros w2 w' p. subst w2 w' p.
  destruct (calls_run StateCompleted StateFailed
              (exec (RegisterObserver StateCompleted o)
                 (exec (RegisterObserver StateCompleted o) w)) c)
    as [_ Hcalls].
  rewrite Hcalls, !tracker_RegisterObserver. simpl.
  rewrite <- app_assoc. simpl. split; [reflexivity |].
  rewrite map_app. reflexivity.
Qed.

(** X12. Nothing is replayed to a late observer: on a tracker created by
    [NewDetails] and mutated any number of times before anyone registers, the
    first observer to register is called once, with the tracker as it is
    then, and no other call has been made. *)
Theorem late_observer_gets_only_the_current_state
  (targetVersion : string) (initialState : State) (actionID : string)
  (ms : list Mutation) (o : Observer) :
  let fresh := {| tracker := NewDetails Observer targetVersion initialState actionID;
                  calls := [] |} in
  let w := performAll StateCompleted StateFailed (map DoMutation ms) fresh in
  calls w = [] /\
  calls (exec (RegisterObserver StateCompleted o) w) =
  [mkInvocation o (delivered StateCompleted (tracker w))].
Proof.
  intros fresh w.
  destruct (mutations_without_observers ms fresh eq_refl) as [Hcalls _].
  fold w in Hcalls. split; [exact Hcalls |].
  rewrite calls_RegisterObserver, tracker_RegisterObserver, Hcalls.
  reflexivity.
Qed.

End Compositions.

(* ===================================================================== *)
(** ** [Equals] as a relation *)
(* ===================================================================== *)

Section EqualsRelation.

Variable Observer : Type.

Implicit Types (mem : Memory Observer) (p q r : option addr) (a b : addr).

(** When Go's [==] holds between two floats. *)
Lemma float64_eqb_true (x y : float64) :
  float64_eqb x y = true <->
  match x, y with
  | S754_zero _, S754_zero _ => True
  | S754_infinity sx, S754_infinity sy => sx = sy
  | S754_finite sx mx ex, S754_finite sy my ey => sx = sy /\ mx = my /\ ex = ey
  | _, _ => False
  end.
Proof.
  unfold float64_eqb, SFeqb.
  destruct x as [sx | sx | | sx mx ex], y as [sy | sy | | sy my ey]; simpl;
    try (split; [discriminate | contradiction]);
    try (destruct sx; simpl; (split; [discriminate | contradiction]));
    try (destruct sy; simpl; (split; [discriminate | contradiction])).
  - split; trivial.
  - destruct sx, sy; simpl; split; intros H; try reflexivity; discriminate.
  - assert (C : Pos.compare_cont Eq mx my = Eq <-> mx = my)
      by apply Pos.compare_eq_iff.
    assert (Z : (ex ?= ey)%Z = Eq <-> ex = ey) by apply Z.compare_eq_iff.
    destruct sx, sy; simpl;
      try (split; [discriminate | intros [H _]; discriminate]);
      (destruct (ex ?= ey)%Z;
       try (split; [discriminate
                   | intros [_ [_ H]]; apply Z in H; discriminate]);
       destruct (Pos.compare_cont Eq mx my); simpl;
       try (split; [discriminate
                   | intros [_ [H _]]; apply C in H; discriminate]);
       (split; [intros _; repeat split; [apply C | apply Z]; reflexivity
               | reflexivity])).
Qed.

Lemma float64_eqb_nan_l (x y : float64) :
  float64_is_nan x = true -> float64_eqb x y = false.
Proof. destruct x; try discriminate. reflexivity. Qed.

Lemma float64_eqb_trans (x y z : float64) :
  float64_eqb x y = true -> float64_eqb y z = true -> float64_eqb x z = true.
Proof.
  rewrite !float64_eqb_true.
  destruct x, y, z; try contradiction; try trivial; try congruence.
  intros [? [? ?]] [? [? ?]]. repeat split; congruence.
Qed.

Lemma string_eqb_trans (x y z : string) :
  String.eqb x y = true -> String.eqb y z = true -> String.eqb x z = true.
Proof. rewrite !String.eqb_eq. congruence. Qed.

(** On time pointers, [equalTimePointers] holds when both are nil or both
    point at one instant. *)
Lemma equalTimePointers_true mem p q :
  equalTimePointers mem p q = true <->
  match p, q with
  | None, None => True
  | Some a, Some b => time.Equal (timeAt mem a) (timeAt mem b) = true
  | _, _ => False
  end.
Proof.
  destruct p as [a |], q as [b |].
  - rewrite equalTimePointers_instants. reflexivity.
  - split; [discriminate | contradiction].
  - split; [discriminate | contradiction].
  - split; [trivial | reflexivity].
Qed.

Lemma Metadata_Equals_true mem (m n : Metadata) :
  Metadata_Equals mem m n = true <->
  equalTimePointers mem (ScheduledAt m) (ScheduledAt n) = true /\
  FailedState m = FailedState n /\
  ErrorMsg m = ErrorMsg n /\
  float64_eqb (DownloadPercent m) (DownloadPercent n) = true /\
  float64_eqb (DownloadRate m) (DownloadRate n) = true.
Proof.
  unfold Metadata_Equals. rewrite !andb_true_iff, !String.eqb_eq. tauto.
Qed.

(** [Metadata.Equals] is transitive through a metadata value without a
    scheduled time. *)
Lemma Metadata_Equals_trans_unscheduled mem (m n o : Metadata) :
  ScheduledAt n = None ->
  Metadata_Equals mem m n = true -> Metadata_Equals mem n o = true ->
  Metadata_Equals mem m o = true.
Proof.
  intros Hn. rewrite !Metadata_Equals_true, Hn.
  intros [T1 [F1 [E1 [P1 R1]]]] [T2 [F2 [E2 [P2 R2]]]].
  apply equalTimePointers_true in T1, T2.
  destruct (ScheduledAt m); [contradiction |].
  destruct (ScheduledAt o); [contradiction |].
  split; [reflexivity |].
  split; [congruence |]. split; [congruence |].
  split; eapply float64_eqb_trans; eassumption.
Qed.

(** [Equals] on two non-nil pointers: the same pointer, or equal fields. *)
Lemma Details_Equals_true mem a b :
  Details_Equals mem (Some a) (Some b) = true <->
  a = b \/
  (State_ (detailsAt mem a) = State_ (detailsAt mem b) /\
   TargetVersion (detailsAt mem a) = TargetVersion (detailsAt mem b) /\
   ActionID (detailsAt mem a) = ActionID (detailsAt mem b) /\
   Metadata_Equals mem (Metadata_ (detailsAt mem a))
     (Metadata_ (detailsAt mem b)) = true).
Proof.
  unfold Details_Equals. cbv zeta.
  destruct (ptr_eqb (Some a) (Some b)) eqn:E.
  - apply ptr_eqb_eq in E. injection E as ->. split; [left; reflexivity | trivial].
  - rewrite !andb_true_iff, !String.eqb_eq. split.
    + intros [[[H1 H2] H3] H4]. right. repeat split; assumption.
    + intros [-> | [H1 [H2 [H3 H4]]]].
      * simpl in E. rewrite Nat.eqb_refl in E. discriminate.
      * repeat split; assumption.
Qed.

(** X13. [Equals] is transitive over all pointers, nil included, through a
    tracker that has no scheduled time ([ScheduledAt] nil): if [p] equals such
    a [q] and [q] equals [r], then [p] equals [r]. *)
Theorem Equals_transitive mem p q r :
  (forall b, q = Some b ->
             ScheduledAt (Metadata_ (detailsAt mem b)) = None) ->
  Details_Equals mem p q = true ->
  Details_Equals mem q r = true ->
  Details_Equals mem p r = true.
Proof.
  intros Hq.
  destruct p as [a |], q as [b |], r as [c |];
    try discriminate; try reflexivity.
  specialize (Hq b eq_refl).
  rewrite !Details_Equals_true.
  intros [-> | [S1 [T1 [A1 M1]]]] [-> | [S2 [T2 [A2 M2]]]].
  - left; reflexivity.
  - right. repeat split; assumption.
  - right. repeat split; assumption.
  - right. split; [congruence |]. split; [congruence |]. split; [congruence |].
    exact (Metadata_Equals_trans_unscheduled _ _ _ _ Hq M1 M2).
Qed.

(** X14. A tracker whose download percent or download rate is NaN is equal
    to no tracker at another address, in either direction: it equals only
    itself, through the pointer comparison. *)
Theorem NaN_tracker_equals_only_itself mem a b :
  float64_is_nan (DownloadPercent (Metadata_ (detailsAt mem a))) = true \/
  float64_is_nan (DownloadRate (Metadata_ (detailsAt mem a))) = true ->
  a <> b ->
  Details_Equals mem (Some a) (Some b) = false /\
  Details_Equals mem (Some b) (Some a) = false /\
  Details_Equals mem (Some a) (Some a) = true.
Proof.
  intros Hnan Hab.
  assert (H : Details_Equals mem (Some a) (Some b) = false).
  { destruct (Details_Equals mem (Some a) (Some b)) eqn:E; [| reflexivity].
    apply Details_Equals_true in E. destruct E as [-> | [_ [_ [_ M]]]].
    - contradiction.
    - apply Metadata_Equals_true in M. destruct M as [_ [_ [_ [P R]]]].
      destruct Hnan as [N | N];
        [rewrite (float64_eqb_nan_l _ _ N) in P
        | rewrite (float64_eqb_nan_l _ _ N) in R]; discriminate. }
  split; [exact H |].
  split; [rewrite Details_Equals_sym; exact H | apply Details_Equals_refl].
Qed.

(** X15. What [Equals] promises: two non-nil trackers it finds equal have the
    same state, target version, action id, pre-failure state and error
    message; their download percents and rates are equal as Go floats, and
    their scheduled times are both nil or the same instant. *)
Theorem Equals_true_means_same_fields mem a b :
  Details_Equals mem (Some a) (Some b) = true ->
  let d := detailsAt mem a in
  let e := detailsAt mem b in
  State_ d = State_ e /\
  TargetVersion d = TargetVersion e /\
  ActionID d = ActionID e /\
  FailedState (Metadata_ d) = FailedState (Metadata_ e) /\
  ErrorMsg (Metadata_ d) = ErrorMsg (Metadata_ e) /\
  (a = b \/
   float64_eqb (DownloadPercent (Metadata_ d)) (DownloadPercent (Metadata_ e)) = true /\
   float64_eqb (DownloadRate (Metadata_ d)) (DownloadRate (Metadata_ e)) = true /\
   equalTimePointers mem (ScheduledAt (Metadata_ d)) (ScheduledAt (Metadata_ e)) = true).
Proof.
  intros H d e. subst d e. apply Details_Equals_true in H.
  destruct H as [-> | [S1 [T1 [A1 M1]]]].
  - repeat split; try reflexivity. left. reflexivity.
  - apply Metadata_Equals_true in M1. destruct M1 as [T [F [E [P R]]]].
    repeat split; try assumption. right. repeat split; assumption.
Qed.

(** X16. [Metadata.Equals] has no pointer comparison to fall back on: a
    metadata value is equal to itself exactly when neither its download
    percent nor its download rate is NaN. *)
Theorem Metadata_Equals_self mem (m : Metadata) :
  Metadata_Equals mem m m = true <->
  float64_is_nan (DownloadPercent m) = false /\
  float64_is_nan (DownloadRate m) = false.
Proof.
  split.
  - intros H. apply Metadata_Equals_true in H.
    destruct H as [_ [_ [_ [P R]]]].
    rewrite float64_eqb_refl in P, R.
    split; [destruct (float64_is_nan (DownloadPercent m))
           | destruct (float64_is_nan (DownloadRate m))];
      try reflexivity; discriminate.
  - intros [P R]. apply Metadata_Equals_refl; assumption.
Qed.

End EqualsRelation.

(* ===================================================================== *)
(** ** The [ps] suffix on input *)
(* ===================================================================== *)

Section CodecInput.

Variable size : Type.
Variable FromHumanSize : string -> result size.
Variable size_to_rate : size -> downloadRate.
Variable json_Unmarshal : bytes -> result string.

Lemma append_ps_not_infinite_text (text : string) :
  text <> "+Inf b" -> String.eqb (text ++ "ps") "+Inf bps" = false.
Proof.
  intros N. apply String.eqb_neq. intros E. apply N.
  rewrite <- (TrimSuffix_append text "ps"), E. reflexivity.
Qed.

(** X17. The [ps] suffix is optional on input: a text and the same text
    followed by [ps] are read alike, as long as the text does not itself end in
    [ps] and is not [+Inf b].  The rate in both cases is
    [FromHumanSize] of the text without suffix. *)
Theorem UnmarshalJSON_ps_suffix_is_optional
  (dr : downloadRate) (data1 data2 : bytes) (text : string) :
  json_Unmarshal data1 = Ok (text ++ "ps") ->
  json_Unmarshal data2 = Ok text ->
  strings.HasSuffix text "ps" = false ->
  text <> "+Inf b" ->
  UnmarshalJSON FromHumanSize size_to_rate json_Unmarshal dr data1 =
  UnmarshalJSON FromHumanSize size_to_rate json_Unmarshal dr data2 /\
  UnmarshalJSON FromHumanSize size_to_rate json_Unmarshal dr data2 =
  match FromHumanSize text with
  | Ok n => (size_to_rate n, None)
  | Err e => (dr, Some e)
  end.
Proof.
  intros H1 H2 Hs Hn. unfold UnmarshalJSON. rewrite H1, H2.
  rewrite (append_ps_not_infinite_text Hn), TrimSuffix_append.
  assert (E : String.eqb text "+Inf bps" = false).
  { destruct (String.eqb text "+Inf bps") eqn:E; [| reflexivity].
    apply String.eqb_eq in E. subst text. discriminate Hs. }
  rewrite E. unfold strings.TrimSuffix. rewrite Hs.
  split; reflexivity.
Qed.

End CodecInput.

(* ===================================================================== *)
(** ** Writing a rate and reading it back *)
(* ===================================================================== *)

Section CodecRoundTrip.

Variable HumanSizeWithPrecision : float64 -> Z -> string.
Variable size : Type.
Variable FromHumanSize : string -> result size.
Variable size_to_rate : size -> downloadRate.
Variable json_Marshal : string -> result bytes.
Variable json_Unmarshal : bytes -> result string.

(** X19. A rate that is not infinite, written by [MarshalJSON] and read back
    by [UnmarshalJSON], is what [FromHumanSize] makes of what
    [HumanSizeWithPrecision] wrote: the [ps] added on the way out is taken off
    on the way in, and an error of the parser comes back with [*dr] untouched.
    This needs [json.Unmarshal] to read the text written for this rate back
    from what [json.Marshal] wrote for it, and the formatted rate not to be
    [+Inf b]. *)
Theorem UnmarshalJSON_MarshalJSON_not_infinite
  (dr0 dr : downloadRate) (data : bytes) :
  (forall written : bytes,
     json_Marshal (HumanSizeWithPrecision dr 2 ++ "ps") = Ok written ->
     json_Unmarshal written = Ok (HumanSizeWithPrecision dr 2 ++ "ps")) ->
  math.IsInf dr 0 = false ->
  HumanSizeWithPrecision dr 2 <> "+Inf b" ->
  MarshalJSON HumanSizeWithPrecision json_Marshal dr = Ok data ->
  UnmarshalJSON FromHumanSize size_to_rate json_Unmarshal dr0 data =
  match FromHumanSize (HumanSizeWithPrecision dr 2) with
  | Ok n => (size_to_rate n, None)
  | Err e => (dr0, Some e)
  end.
Proof.
  intros Hjson Hfin Hne Hdata.
  rewrite (MarshalJSON_not_infinite _ _ _ Hfin) in Hdata.
  apply UnmarshalJSON_of_formatted; [| exact Hne].
  apply Hjson. exact Hdata.
Qed.

End CodecRoundTrip.

(* ===================================================================== *)
(** ** Closed examples for the properties above *)
(* ===================================================================== *)

(** The stand-in JSON functions read back what they write. *)
Lemma sample_json_round_trip (text : string) (written : bytes) :
  sample_json_Marshal text = Ok written ->
  sample_json_Unmarshal written = Ok text.
Proof.
  unfold sample_json_Marshal. intros [= <-]. unfold sample_json_Unmarshal.
  rewrite last_last, removelast_last, string_of_list_byte_of_string.
  reflexivity.
Qed.

Lemma reachable_observed_world : reachable UPG_COMPLETED UPG_FAILED observed_world.
Proof.
  apply reachable_RegisterObserver, reachable_RegisterObserver,
    reachable_NewDetails.
Qed.

(** X4 on the tracker with observers 7 and 9: the call made when 9 registered
    went to a registered observer. *)
Lemma only_registered_observers_are_called_witness :
  In 9 (observers (tracker observed_world)).
Proof.
  refine (@only_registered_observers_are_called nat UPG_COMPLETED UPG_FAILED
            observed_world
            (mkInvocation 9 (delivered UPG_COMPLETED (tracker observed_world)))
            reachable_observed_world _).
  right. left. reflexivity.
Defined.

(** After [Fail(nil)] on the fresh tracker, the pre-failure state is set and
    the state is not the failed one. *)
Example Fail_nil_leaves_FailedState_without_Failed :
  let w := exec (Fail_nil UPG_FAILED) fresh_world in
  reachable_with_panics UPG_COMPLETED UPG_FAILED w /\
  FailedState (Metadata_ (tracker w)) = UPG_REQUESTED /\
  ErrorMsg (Metadata_ (tracker w)) = EmptyString /\
  State_ (tracker w) = UPG_REQUESTED /\
  State_ (tracker w) <> UPG_FAILED.
Proof.
  cbv zeta. split.
  - apply with_panics_Fail_nil, with_panics_NewDetails.
  - repeat split. discriminate.
Qed.

(** X5 on the tracker with observers 7 and 9, after a [Fail(nil)] its owner
    recovered from and a [SetDownloadProgress]: the snapshot passed to 7 has
    its own state as pre-failure state. *)
Lemma snapshots_passed_are_consistent_witness :
  let w := exec (SetDownloadProgress UPG_COMPLETED half rate_2048)
             (exec (Fail_nil UPG_FAILED) observed_world) in
  let copy := set_observers [] (tracker w) in
  observers copy = [] /\
  State_ copy <> UPG_COMPLETED /\
  (State_ copy = UPG_FAILED \/ FailedState (Metadata_ copy) = State_ copy).
Proof.
  intros w copy.
  assert (R : reachable_with_panics UPG_COMPLETED UPG_FAILED w).
  { apply (with_panics_run (CallSetDownloadProgress half rate_2048)).
    apply with_panics_Fail_nil.
    apply reachable_is_with_panics. exact reachable_observed_world. }
  assert (Hin : In (mkInvocation 7 (Some copy)) (calls w)).
  { right. right. left. reflexivity. }
  destruct (@snapshots_passed_are_consistent nat UPG_COMPLETED UPG_FAILED w
              (mkInvocation 7 (Some copy)) copy R Hin eq_refl)
    as [H1 [H2 [_ [_ [_ [H6 _]]]]]].
  split; [exact H1 |]. split; [exact H2 |]. apply H6. discriminate.
Defined.

(** X21 on the fresh tracker after [Fail(nil)]. *)
Lemma failure_metadata_with_panics_witness :
  let d := tracker (exec (Fail_nil UPG_FAILED) fresh_world) in
  State_ d = UPG_FAILED \/ FailedState (Metadata_ d) = State_ d.
Proof.
  refine (proj2 (@failure_metadata_with_panics nat UPG_COMPLETED UPG_FAILED
                   (exec (Fail_nil UPG_FAILED) fresh_world) _) _).
  - apply with_panics_Fail_nil, with_panics_NewDetails.
  - discriminate.
Defined.

(** X22 on the fresh tracker. *)
Lemma Fail_nil_before_the_panic_witness :
  FailedState (Metadata_ (tracker (exec (Fail_nil UPG_FAILED) fresh_world))) =
  UPG_REQUESTED.
Proof.
  refine (proj1 (proj2 (proj2
            (@Fail_nil_before_the_panic nat UPG_FAILED fresh_world))) _).
  discriminate.
Defined.

(** X6 on the failed tracker: its pre-failure state is not the failed
    state. *)
Lemma FailedState_is_never_StateFailed_witness :
  UPG_FAILED <> EmptyString /\
  FailedState (Metadata_ (tracker failed_world)) <> UPG_FAILED.
Proof.
  split; [discriminate |].
  refine (@FailedState_is_never_StateFailed nat UPG_COMPLETED UPG_FAILED
            failed_world _ reachable_failed_world).
  discriminate.
Defined.

(** X8 on the fresh tracker: a download state after a failure leaves what it
    leaves without the failure. *)
Lemma SetState_overrides_earlier_state_and_failure_witness :
  tracker (exec (SetState UPG_COMPLETED UPG_FAILED UPG_DOWNLOADING) failed_world) =
  tracker (exec (SetState UPG_COMPLETED UPG_FAILED UPG_DOWNLOADING) fresh_world).
Proof.
  refine (proj1 (@SetState_overrides_earlier_state_and_failure nat UPG_COMPLETED
                   UPG_FAILED UPG_DOWNLOADING fresh_world _) disk_full).
  discriminate.
Defined.

(** X10 on the tracker with observers 7 and 9, once completed. *)
Lemma completed_tracker_can_fail_witness :
  let w := exec (SetState UPG_COMPLETED UPG_FAILED UPG_COMPLETED) observed_world in
  let w' := exec (Fail UPG_COMPLETED UPG_FAILED disk_full) w in
  State_ (tracker w') = UPG_FAILED /\
  FailedState (Metadata_ (tracker w')) = UPG_COMPLETED /\
  ErrorMsg (Metadata_ (tracker w')) = "disk full" /\
  calls w' =
  (calls w ++ map (fun o => mkInvocation o (Some (set_observers [] (tracker w'))))
                  (observers (tracker w)))%list.
Proof.
  refine (@completed_tracker_can_fail nat UPG_COMPLETED UPG_FAILED disk_full
            (exec (SetState UPG_COMPLETED UPG_FAILED UPG_COMPLETED) observed_world)
            _ _).
  - discriminate.
  - reflexivity.
Defined.

(** X13 on three trackers with the same exported fields. *)
Lemma Equals_transitive_witness :
  Details_Equals two_trackers (Some 0) (Some 2) = true.
Proof.
  refine (@Equals_transitive nat two_trackers (Some 0) (Some 1) (Some 2) _ _ _).
  - intros b [= <-]. reflexivity.
  - reflexivity.
  - reflexivity.
Defined.

(** X14 on the two trackers that hold a NaN. *)
Lemma NaN_tracker_equals_only_itself_witness :
  Details_Equals nan_trackers (Some 0) (Some 1) = false /\
  Details_Equals nan_trackers (Some 1) (Some 0) = false /\
  Details_Equals nan_trackers (Some 0) (Some 0) = true.
Proof.
  refine (@NaN_tracker_equals_only_itself nat nan_trackers 0 1 _ _).
  - left. reflexivity.
  - discriminate.
Defined.

(** X15 on two trackers with different observers. *)
Lemma Equals_true_means_same_fields_witness :
  State_ (detailsAt two_trackers 0) = State_ (detailsAt two_trackers 1) /\
  ErrorMsg (Metadata_ (detailsAt two_trackers 0)) =
  ErrorMsg (Metadata_ (detailsAt two_trackers 1)).
Proof.
  destruct (@Equals_true_means_same_fields nat two_trackers 0 1 eq_refl)
    as [HS [_ [_ [_ [HE _]]]]].
  split; [exact HS | exact HE].
Defined.

(** X17 with the stand-in library: the JSON strings [2kBps] and [2kB] are read
    alike. *)
Lemma UnmarshalJSON_ps_suffix_is_optional_witness :
  let data1 := (Byte.x22 :: list_byte_of_string "2kBps" ++ [Byte.x22])%list in
  let data2 := (Byte.x22 :: list_byte_of_string "2kB" ++ [Byte.x22])%list in
  UnmarshalJSON sample_FromHumanSize sample_size_to_rate sample_json_Unmarshal
    half data1 =
  UnmarshalJSON sample_FromHumanSize sample_size_to_rate sample_json_Unmarshal
    half data2 /\
  UnmarshalJSON sample_FromHumanSize sample_size_to_rate sample_json_Unmarshal
    half data2 =
  (sample_size_to_rate 2000, None).
Proof.
  refine (@UnmarshalJSON_ps_suffix_is_optional Z sample_FromHumanSize
            sample_size_to_rate sample_json_Unmarshal half _ _ "2kB" _ _ _ _).
  - reflexivity.
  - reflexivity.
  - reflexivity.
  - discriminate.
Defined.

(** X18 with the stand-in library: negative infinity is written as [+Inf bps]
    and read back as positive infinity. *)
Lemma UnmarshalJSON_MarshalJSON_infinite_witness :
  let data := (Byte.x22 :: list_byte_of_string "+Inf bps" ++ [Byte.x22])%list in
  MarshalJSON sample_HumanSizeWithPrecision sample_json_Marshal
    (S754_infinity true) = Ok data /\
  UnmarshalJSON sample_FromHumanSize sample_size_to_rate sample_json_Unmarshal
    half data = (S754_infinity false, None).
Proof.
  split; [reflexivity |].
  refine (@UnmarshalJSON_MarshalJSON_infinite sample_HumanSizeWithPrecision Z
            sample_FromHumanSize sample_size_to_rate sample_json_Marshal
            sample_json_Unmarshal half (S754_infinity true) true _
            (@sample_json_round_trip "+Inf bps") eq_refl eq_refl).
Defined.

(** X19 with the stand-in library: the rate 2048, written and read back, is
    what the parser makes of what the formatter wrote. *)
Lemma UnmarshalJSON_MarshalJSON_not_infinite_witness :
  let data := (Byte.x22 :: list_byte_of_string "2kBps" ++ [Byte.x22])%list in
  MarshalJSON sample_HumanSizeWithPrecision sample_json_Marshal rate_2048 =
  Ok data /\
  UnmarshalJSON sample_FromHumanSize sample_size_to_rate sample_json_Unmarshal
    half data =
  (sample_size_to_rate 2000, None).
Proof.
  split; [reflexivity |].
  refine (@UnmarshalJSON_MarshalJSON_not_infinite sample_HumanSizeWithPrecision Z
            sample_FromHumanSize sample_size_to_rate sample_json_Marshal
            sample_json_Unmarshal half rate_2048 _
            (@sample_json_round_trip "2kBps") eq_refl _ eq_refl).
  discriminate.
Defined.
